(** * Kai MB Mechanic Booking: slot generation, availability and the booking store

    A shallow embedding of the booking logic of [app.py]:
    [generate_slots], [slot_taken], [lead_time_ok], the availability
    filter of the customer tab, [insert_booking], [fetch_bookings],
    [update_status] and the derived [total] column of the admin view.

    Modelling conventions.
    - Python [int] is [Z]; the columns of the [bookings] table keep the
      semantic types of the schema (text as [string], integer as [Z]).
      The frame of the admin view holds the price columns as int64, so
      the sum behind [total] wraps around at 64 bits ([int64_add]).
    - [pd.to_datetime] reads a whole column at once and is a parameter
      of the admin view: it either raises or gives one reading per
      cell, a timestamp or NaT.
    - Python [str] is [string]; a character is a code point below 256,
      and text is ordered byte by byte as SQLite's BINARY collation
      orders it.
    - A [datetime.date] is a record of year, month and day; its ordinal
      and weekday follow the proleptic Gregorian rules of the [datetime]
      module.  A [datetime.datetime] is kept as the ordinal of its date
      together with its time of day, which is the information that
      [combine], [+ timedelta], comparison and [.time()] use.
    - Exceptions are values of [outcome]; the [while] loop of
      [generate_slots] runs on fuel, and running out of fuel is a third
      outcome, distinct from returning and from raising.
    - [datetime.now()] is a clock read: every call of [lead_time_ok]
      that reaches it consumes one reading of the clock.
    - The SQLite connection is the content of the [bookings] table plus
      the AUTOINCREMENT counter; storage faults are not modelled. *)

From Stdlib Require Import ZArith List Bool Ascii String Lia.
From Stdlib Require Import Permutation Sorted.
Import ListNotations.

Local Open Scope string_scope.
Local Open Scope Z_scope.

(** ** Outcomes of fallible code *)

Inductive exn : Type :=
| ValueError
| OverflowError.

Inductive outcome (A : Type) : Type :=
| Ok (a : A)
| Raise (e : exn)
| OutOfFuel.

Arguments Ok {A} a.
Arguments Raise {A} e.
Arguments OutOfFuel {A}.

Definition bind {A B : Type} (x : outcome A) (f : A -> outcome B) : outcome B :=
  match x with
  | Ok a => f a
  | Raise e => Raise e
  | OutOfFuel => OutOfFuel
  end.

Notation "x <- c ;; k" := (bind c (fun x => k))
  (at level 61, c at next level, right associativity).

(** ** The calendar of the [datetime] module *)

Module Calendar.

Record date : Type := mkdate { year : Z; month : Z; day : Z }.

Record time : Type :=
  mktime { hour : Z; minute : Z; second : Z; microsecond : Z }.

(** A datetime: ordinal of the date, and the time of day. *)
Record datetime : Type := mkdatetime { ordinal : Z; tod : time }.

Definition MINYEAR : Z := 1.
Definition MAXYEAR : Z := 9999.
Definition MAXORDINAL : Z := 3652059.

Definition is_leap (y : Z) : bool :=
  (y mod 4 =? 0) && (negb (y mod 100 =? 0) || (y mod 400 =? 0)).

Definition days_before_year (y : Z) : Z :=
  let y1 := y - 1 in
  y1 * 365 + y1 / 4 - y1 / 100 + y1 / 400.

Definition DAYS_IN_MONTH : list Z :=
  [-1; 31; 28; 31; 30; 31; 30; 31; 31; 30; 31; 30; 31].

Definition DAYS_BEFORE_MONTH : list Z :=
  [-1; 0; 31; 59; 90; 120; 151; 181; 212; 243; 273; 304; 334].

Definition days_in_month (y m : Z) : Z :=
  if (m =? 2) && is_leap y then 29
  else nth (Z.to_nat m) DAYS_IN_MONTH 0.

Definition days_before_month (y m : Z) : Z :=
  nth (Z.to_nat m) DAYS_BEFORE_MONTH 0
  + (if (m >? 2) && is_leap y then 1 else 0).

Definition toordinal (d : date) : Z :=
  days_before_year (year d) + days_before_month (year d) (month d) + day d.

(** Monday is 0, Sunday is 6. *)
Definition weekday (d : date) : Z := (toordinal d + 6) mod 7.

(** The dates the [date] constructor accepts. *)
Definition valid_date (d : date) : Prop :=
  MINYEAR <= year d <= MAXYEAR /\
  1 <= month d <= 12 /\
  1 <= day d <= days_in_month (year d) (month d).

Definition valid_time (t : time) : Prop :=
  0 <= hour t <= 23 /\ 0 <= minute t <= 59 /\
  0 <= second t <= 59 /\ 0 <= microsecond t <= 999999.

Definition valid_datetime (dt : datetime) : Prop :=
  1 <= ordinal dt <= MAXORDINAL /\ valid_time (tod dt).

(** [time(hh, mm)]: the constructor checks the ranges. *)
Definition time_of (hh mm : Z) : outcome time :=
  if (0 <=? hh) && (hh <=? 23) then
    if (0 <=? mm) && (mm <=? 59) then Ok (mktime hh mm 0 0)
    else Raise ValueError
  else Raise ValueError.

Definition combine (d : date) (t : time) : datetime :=
  mkdatetime (toordinal d) t.

(** Position on the time line, in microseconds. *)
Definition US_PER_MINUTE : Z := 60000000.
Definition US_PER_DAY : Z := 86400000000.

Definition time_us (t : time) : Z :=
  ((hour t * 60 + minute t) * 60 + second t) * 1000000 + microsecond t.

Definition datetime_us (dt : datetime) : Z :=
  ordinal dt * US_PER_DAY + time_us (tod dt).

Definition time_of_us (u : Z) : time :=
  let s := u / 1000000 in
  mktime (s / 3600) ((s mod 3600) / 60) (s mod 60) (u mod 1000000).

Definition datetime_of_us (u : Z) : datetime :=
  mkdatetime (u / US_PER_DAY) (time_of_us (u mod US_PER_DAY)).

(** [dt + timedelta(minutes=k)]: the sum is normalised to days and time
    of day, and a day outside [1 .. MAXORDINAL] raises OverflowError. *)
Definition add_minutes (dt : datetime) (k : Z) : outcome datetime :=
  let r := datetime_of_us (datetime_us dt + k * US_PER_MINUTE) in
  if (0 <? ordinal r) && (ordinal r <=? MAXORDINAL) then Ok r
  else Raise OverflowError.

(** Comparison of naive datetimes is the lexicographic comparison of
    their fields. *)
Fixpoint lex_leb (a b : list Z) : bool :=
  match a, b with
  | x :: a', y :: b' => (x <? y) || ((x =? y) && lex_leb a' b')
  | [], _ => true
  | _ :: _, [] => false
  end.

Definition datetime_key (dt : datetime) : list Z :=
  [ordinal dt; hour (tod dt); minute (tod dt); second (tod dt);
   microsecond (tod dt)].

Definition datetime_le (a b : datetime) : bool :=
  lex_leb (datetime_key a) (datetime_key b).

(** [a >= b] *)
Definition datetime_ge (a b : datetime) : bool := datetime_le b a.

(** *** Formatting *)

Definition digit_char (n : Z) : ascii := ascii_of_nat (48 + Z.to_nat n).

(** ["%02d"] on a number below 100. *)
Definition fmt2 (n : Z) : string :=
  String (digit_char (n / 10)) (String (digit_char (n mod 10)) EmptyString).

(** ["%04d"] on a number below 10000. *)
Definition fmt4 (n : Z) : string :=
  fmt2 (n / 100) ++ fmt2 (n mod 100).

(** [t.strftime("%H:%M")] *)
Definition strftime_HM (t : time) : string :=
  fmt2 (hour t) ++ ":" ++ fmt2 (minute t).

(** [d.isoformat()] *)
Definition isoformat (d : date) : string :=
  fmt4 (year d) ++ "-" ++ fmt2 (month d) ++ "-" ++ fmt2 (day d).

End Calendar.

Import Calendar.

(** ** Settings *)

Record Settings : Type := mkSettings {
  WORK_DAYS : list Z;
  DAY_START : time;
  DAY_END : time;
  SLOT_MINUTES : Z;
  MIN_LEAD_TIME_MINUTES : Z
}.

(** The values compiled into [app.py]. *)
Definition settings : Settings :=
  {| WORK_DAYS := [0; 1; 2; 3; 4; 5];
     DAY_START := mktime 9 0 0 0;
     DAY_END := mktime 18 0 0 0;
     SLOT_MINUTES := 60;
     MIN_LEAD_TIME_MINUTES := 60 |}.

Definition mem_Z (x : Z) (l : list Z) : bool := existsb (Z.eqb x) l.

(** ** Slot generator *)

(** The [while] loop of [generate_slots]: [dt] is the loop variable,
    [slots] the list built so far. *)
Fixpoint slots_loop (fuel : nat) (slot_minutes : Z) (end_dt dt : datetime)
    (slots : list string) : outcome (list string) :=
  match fuel with
  | O => OutOfFuel
  | S fuel' =>
      nxt <- add_minutes dt slot_minutes ;;
      if datetime_le nxt end_dt then
        slots_loop fuel' slot_minutes end_dt nxt
          (slots ++ [strftime_HM (tod dt)])
      else Ok slots
  end.

(** A day has 1440 minutes, so a loop that advances by at least one
    minute and stays within one day ends within 1440 tests.  With a slot
    length of zero or less the loop of the source does not end by its
    own test; the model then runs out of fuel or raises. *)
Definition SLOT_FUEL : nat := 1441.

Definition generate_slots (cfg : Settings) (for_day : date)
    : outcome (list string) :=
  if negb (mem_Z (weekday for_day) (WORK_DAYS cfg)) then Ok []
  else
    slots_loop SLOT_FUEL (SLOT_MINUTES cfg)
      (combine for_day (DAY_END cfg)) (combine for_day (DAY_START cfg)) [].

(** ** Parsing a time label *)

(** [s.split(":")] *)
Fixpoint split_colon (s : string) : list string :=
  match s with
  | EmptyString => [EmptyString]
  | String c s' =>
      if Ascii.eqb c ":" then EmptyString :: split_colon s'
      else
        match split_colon s' with
        | p :: ps => String c p :: ps
        | [] => [String c EmptyString]
        end
  end.

(** White space for [int]: tab to carriage return, space, NEL and
    no-break space. *)
Definition is_space (c : ascii) : bool :=
  let n := Z.of_N (N_of_ascii c) in
  ((9 <=? n) && (n <=? 13)) || (n =? 32) || (n =? 133) || (n =? 160).

Definition digit_value (c : ascii) : option Z :=
  let n := Z.of_N (N_of_ascii c) in
  if (48 <=? n) && (n <=? 57) then Some (n - 48) else None.

Fixpoint lstrip (s : string) : string :=
  match s with
  | String c s' => if is_space c then lstrip s' else s
  | EmptyString => EmptyString
  end.

(** Digits with single underscores between them.  Returns the value,
    the number of digits and the unread rest; [None] on a doubled or
    trailing underscore. *)
Fixpoint scan_digits (s : string) (prev_underscore : bool) (acc : Z)
    (ndigits : nat) : option (Z * nat * string) :=
  match s with
  | String c s' =>
      if Ascii.eqb c "_" then
        if prev_underscore then None else scan_digits s' true acc ndigits
      else
        match digit_value c with
        | Some d => scan_digits s' false (acc * 10 + d) (S ndigits)
        | None => if prev_underscore then None else Some (acc, ndigits, s)
        end
  | EmptyString =>
      if prev_underscore then None else Some (acc, ndigits, EmptyString)
  end.

Definition MAX_STR_DIGITS : nat := 4300.

(** [int(s)] in base 10: optional white space, an optional sign, digits,
    optional white space; anything else is a ValueError. *)
Definition py_int (s : string) : outcome Z :=
  let s1 := lstrip s in
  let '(sign, s2) :=
    match s1 with
    | String c r =>
        if Ascii.eqb c "+" then (1, r)
        else if Ascii.eqb c "-" then (-1, r)
        else (1, s1)
    | EmptyString => (1, s1)
    end in
  match s2 with
  | String "_" _ => Raise ValueError
  | _ =>
      match scan_digits s2 false 0 0 with
      | None => Raise ValueError
      | Some (v, n, rest) =>
          match n, lstrip rest with
          | O, _ => Raise ValueError
          | _, String _ _ => Raise ValueError
          | _, EmptyString =>
              if Nat.ltb MAX_STR_DIGITS n then Raise ValueError
              else Ok (sign * v)
          end
      end
  end.

(** [hh, mm = s.split(":")] followed by [time(int(hh), int(mm))]. *)
Definition parse_label (s : string) : outcome time :=
  match split_colon s with
  | [hh; mm] =>
      h <- py_int hh ;;
      m <- py_int mm ;;
      time_of h m
  | _ => Raise ValueError
  end.

(** ** Lead time *)

(** [now] is what [datetime.now()] returns in this call; it is only
    consulted after the [try] block has succeeded. *)
Definition lead_time_ok (cfg : Settings) (now : datetime)
    (chosen_day : date) (chosen_time_str : string) : outcome bool :=
  match (t <- parse_label chosen_time_str ;; Ok (combine chosen_day t)) with
  | Ok chosen_dt =>
      limit <- add_minutes now (MIN_LEAD_TIME_MINUTES cfg) ;;
      Ok (datetime_ge chosen_dt limit)
  | Raise _ => Ok true
  | OutOfFuel => OutOfFuel
  end.

(** ** The booking store *)

Record Booking : Type := mkBooking {
  created_at : string;
  customer_name : string;
  phone : string;
  suburb : string;
  address : string;
  bike_type : string;
  service_name : string;
  service_price : Z;
  addons : string;
  addons_price : Z;
  travel_zone : string;
  travel_fee : Z;
  booking_date : string;
  booking_time : string;
  notes : string;
  status : string
}.

(** A row of the [bookings] table: the key and the sixteen columns. *)
Record Row : Type := mkRow { id : Z; cols : Booking }.

(** The connection: the rows of the table, and the largest key ever
    handed out (the [sqlite_sequence] entry of the table). *)
Record Store : Type := mkStore {
  bookings : list Row;
  sqlite_sequence : Z
}.

(** [get_conn] on a fresh database file. *)
Definition empty_store : Store := mkStore [] 0.

Definition max_id (rows : list Row) : Z :=
  fold_right (fun r m => Z.max (id r) m) 0 rows.

(** AUTOINCREMENT: one more than the largest key that ever existed. *)
Definition next_id (conn : Store) : Z :=
  Z.max (sqlite_sequence conn) (max_id (bookings conn)) + 1.

Definition insert_booking (conn : Store) (b : Booking) : Store :=
  let k := next_id conn in
  {| bookings := bookings conn ++ [mkRow k b];
     sqlite_sequence := k |}.

Definition set_status (b : Booking) (new_status : string) : Booking :=
  {| created_at := created_at b;
     customer_name := customer_name b;
     phone := phone b;
     suburb := suburb b;
     address := address b;
     bike_type := bike_type b;
     service_name := service_name b;
     service_price := service_price b;
     addons := addons b;
     addons_price := addons_price b;
     travel_zone := travel_zone b;
     travel_fee := travel_fee b;
     booking_date := booking_date b;
     booking_time := booking_time b;
     notes := notes b;
     status := new_status |}.

(** [UPDATE bookings SET status=? WHERE id=?] *)
Definition update_status (conn : Store) (booking_id : Z)
    (new_status : string) : Store :=
  {| bookings :=
       map (fun r =>
              if id r =? booking_id
              then mkRow (id r) (set_status (cols r) new_status)
              else r)
           (bookings conn);
     sqlite_sequence := sqlite_sequence conn |}.

(** The WHERE clause of [slot_taken]. *)
Definition holds_slot (d t : string) (r : Row) : bool :=
  String.eqb (booking_date (cols r)) d
  && String.eqb (booking_time (cols r)) t
  && negb (String.eqb (status (cols r)) "cancelled").

(** [SELECT COUNT( * ) ...] and the test [> 0]. *)
Definition slot_taken (conn : Store) (d t : string) : bool :=
  Z.of_nat (List.length (filter (holds_slot d t) (bookings conn))) >? 0.

(** [ORDER BY booking_date DESC, booking_time DESC, id DESC]: text is
    compared byte by byte, a proper prefix first. *)
Definition row_before (r1 r2 : Row) : bool :=
  match String.compare (booking_date (cols r2)) (booking_date (cols r1)) with
  | Lt => true
  | Gt => false
  | Eq =>
      match String.compare (booking_time (cols r2)) (booking_time (cols r1)) with
      | Lt => true
      | Gt => false
      | Eq => id r2 <=? id r1
      end
  end.

Fixpoint insert_row (r : Row) (l : list Row) : list Row :=
  match l with
  | [] => [r]
  | x :: l' => if row_before r x then r :: l else x :: insert_row r l'
  end.

Definition order_rows (rows : list Row) : list Row :=
  fold_right insert_row [] rows.

(** [SELECT * FROM bookings ORDER BY ...] *)
Definition fetch_bookings (conn : Store) : list Row :=
  order_rows (bookings conn).

(** ** Availability filter *)

(** [[s for s in free_slots if lead_time_ok(booking_day, s)]]: the call
    for the element at position [call] reads [clock call]. *)
Fixpoint filter_lead_time (cfg : Settings) (clock : nat -> datetime)
    (call : nat) (booking_day : date) (slots : list string)
    : outcome (list string) :=
  match slots with
  | [] => Ok []
  | s :: rest =>
      ok <- lead_time_ok cfg (clock call) booking_day s ;;
      rest' <- filter_lead_time cfg clock (S call) booking_day rest ;;
      Ok (if ok : bool then s :: rest' else rest')
  end.

(** The slots offered in the "Time slot" box; the empty list stands for
    [booking_time = None]. *)
Definition free_slots (cfg : Settings) (conn : Store)
    (clock : nat -> datetime) (booking_day : date) : outcome (list string) :=
  slots <- generate_slots cfg booking_day ;;
  match slots with
  | [] => Ok []
  | _ :: _ =>
      let free :=
        filter (fun s => negb (slot_taken conn (isoformat booking_day) s))
               slots in
      if MIN_LEAD_TIME_MINUTES cfg >? 0
      then filter_lead_time cfg clock 0 booking_day free
      else Ok free
  end.

(** ** Operations on the store, as the two tabs issue them *)

Inductive op : Type :=
| Create (b : Booking)
| UpdateStatus (booking_id : Z) (new_status : string).

Definition run_op (conn : Store) (o : op) : Store :=
  match o with
  | Create b => insert_booking conn b
  | UpdateStatus k s => update_status conn k s
  end.

Definition run_ops (conn : Store) (ops : list op) : Store :=
  fold_left run_op ops conn.

(** The options of the "New status" box. *)
Definition STATUSES : list string := ["new"; "confirmed"; "done"; "cancelled"]%string.

Definition allowed_status (s : string) : Prop := In s STATUSES.

Definition op_status (o : op) : string :=
  match o with
  | Create b => status b
  | UpdateStatus _ s => s
  end.

(** ** Admin view *)

(** A row of [df_view] after the [total] column has been added. *)
Record ViewRow : Type := mkViewRow { row : Row; total : Z }.

(** The price columns of the frame are 64-bit integers; their sum wraps
    around without notice. *)
Definition int64_wrap (z : Z) : Z :=
  (z + 9223372036854775808) mod 18446744073709551616 - 9223372036854775808.

Definition int64_add (a b : Z) : Z := int64_wrap (a + b).

(** Does [z] fit a signed 64-bit integer? *)
Definition fits_int64 (z : Z) : Prop :=
  -9223372036854775808 <= z <= 9223372036854775807.

(** The test of the date mask on one converted cell; [None] is NaT,
    which compares false with everything. *)
Definition in_date_range (date_from date_to : Z) (t : option Z) : bool :=
  match t with
  | Some t => (date_from <=? t) && (t <=? date_to)
  | None => false
  end.

Definition isin (s : string) (values : list string) : bool :=
  existsb (String.eqb s) values.

(** Lines 331 and 332: the status mask, applied only when some status
    is selected. *)
Definition status_mask (status_filter : list string) (df : list Row)
    : list Row :=
  match status_filter with
  | [] => df
  | _ :: _ => filter (fun r => isin (status (cols r)) status_filter) df
  end.

(** [df_view["total"] = service_price + addons_price + travel_fee], a
    sum of 64-bit columns, taken from left to right. *)
Definition add_total (df : list Row) : list ViewRow :=
  map (fun r =>
         mkViewRow r (int64_add
                        (int64_add (service_price (cols r))
                                   (addons_price (cols r)))
                        (travel_fee (cols r))))
      df.

(** Lines 330 to 339 of the admin tab.  [to_datetime] is
    [pd.to_datetime] on the whole [booking_date] column: [None] when it
    raises, otherwise one reading per cell, [None] for a cell read as
    NaT.  How it reads a column (the format it infers, which cells it
    refuses) is pandas' business and is left open.  [date_from] and
    [date_to] are the two bounds already converted. *)
Definition df_view (to_datetime : list string -> option (list (option Z)))
    (status_filter : list string) (date_from date_to : Z)
    (df : list Row) : outcome (list ViewRow) :=
  let df1 := status_mask status_filter df in
  match to_datetime (map (fun r => booking_date (cols r)) df1) with
  | None => Raise ValueError
  | Some ts =>
      let df2 :=
        map fst
          (filter (fun rt => in_date_range date_from date_to (snd rt))
                  (List.combine df1 ts)) in
      Ok (add_total df2)
  end.

(** ** Reference points for the statements *)

(** The label of the slot that starts [u] microseconds after midnight. *)
Definition label_of_us (u : Z) : string := strftime_HM (time_of_us u).

(** The labels of [n] slots, the first one at [start_us] and each next
    one [step_us] later. *)
Definition slot_labels (start_us step_us : Z) (n : nat) : list string :=
  map (fun i => label_of_us (start_us + Z.of_nat i * step_us)) (seq 0 n).

(** The label ["HH:MM"] of hour [h] and minute [m]. *)
Definition label_hm (h m : Z) : string := strftime_HM (mktime h m 0 0).

(** Where the slot labelled [h]:[m] starts on day [d]. *)
Definition slot_start_us (d : date) (h m : Z) : Z :=
  datetime_us (combine d (mktime h m 0 0)).

(** A label as [generate_slots] writes it. *)
Definition well_formed_label (s : string) : Prop :=
  exists h m, 0 <= h <= 23 /\ 0 <= m <= 59 /\ s = label_hm h m.

Definition Zrange (n : nat) : list Z := map Z.of_nat (seq 0 n).

(** Does [parse_label] read the label of [h]:[m] back as [h]:[m]:00? *)
Definition parse_label_check (h m : Z) : bool :=
  match parse_label (label_hm h m) with
  | Ok t =>
      (hour t =? h) && (minute t =? m) && (second t =? 0)
      && (microsecond t =? 0)
  | _ => false
  end.

(** One past the last representable instant. *)
Definition LIMIT_US : Z := (MAXORDINAL + 1) * US_PER_DAY.

(** [b'] is [b] with, at most, another status. *)
Definition same_except_status (b b' : Booking) : Prop :=
  created_at b' = created_at b /\
  customer_name b' = customer_name b /\
  phone b' = phone b /\
  suburb b' = suburb b /\
  address b' = address b /\
  bike_type b' = bike_type b /\
  service_name b' = service_name b /\
  service_price b' = service_price b /\
  addons b' = addons b /\
  addons_price b' = addons_price b /\
  travel_zone b' = travel_zone b /\
  travel_fee b' = travel_fee b /\
  booking_date b' = booking_date b /\
  booking_time b' = booking_time b /\
  notes b' = notes b.

(** The order of the listing, in words: a later booking date first;
    within a date, a later booking time first; within a date and time,
    the larger key first. *)
Definition listed_before (r1 r2 : Row) : Prop :=
  String.ltb (booking_date (cols r2)) (booking_date (cols r1)) = true \/
  (booking_date (cols r1) = booking_date (cols r2) /\
   (String.ltb (booking_time (cols r2)) (booking_time (cols r1)) = true \/
    (booking_time (cols r1) = booking_time (cols r2) /\ id r2 <= id r1))).

(** ** Sample data *)

Definition sample_booking (d t st : string) : Booking :=
  {| created_at := "2024-01-05T10:15:00";
     customer_name := "Alex";
     phone := "0412345678";
     suburb := "Carlton";
     address := "";
     bike_type := "Road";
     service_name := "Safety Tune ($99)";
     service_price := 99;
     addons := "Tube install labour (+$35)";
     addons_price := 35;
     travel_zone := "Outside area (+$20 travel fee)";
     travel_fee := 20;
     booking_date := d;
     booking_time := t;
     notes := "";
     status := st |}.

(** What [pd.to_datetime] reads on a column of the booking dates of the
    samples, as day counts; a column with any other cell is refused. *)
Fixpoint sample_to_datetime (col : list string) : option (list (option Z)) :=
  match col with
  | [] => Some []
  | s :: col' =>
      match sample_to_datetime col' with
      | None => None
      | Some ts =>
          if String.eqb s "2024-01-08" then Some (Some 738893 :: ts)
          else if String.eqb s "2024-01-09" then Some (Some 738894 :: ts)
          else None
      end
  end.

Definition sample_store : Store :=
  run_ops empty_store
    [Create (sample_booking "2024-01-08" "10:00" "new");
     Create (sample_booking "2024-01-09" "09:00" "new");
     Create (sample_booking "2024-01-08" "15:00" "new");
     UpdateStatus 1 "cancelled"].

(** ** Phone numbers *)

(** [c.isspace()] on a code point below 256. *)
Definition isspace (c : ascii) : bool :=
  let n := Z.of_N (N_of_ascii c) in
  ((9 <=? n) && (n <=? 13)) || ((28 <=? n) && (n <=? 32))
  || (n =? 133) || (n =? 160).

(** [c.isdigit()] on a code point below 256: the ten digits and the
    superscripts one, two and three. *)
Definition isdigit (c : ascii) : bool :=
  let n := Z.of_N (N_of_ascii c) in
  ((48 <=? n) && (n <=? 57)) || (n =? 178) || (n =? 179) || (n =? 185).

Fixpoint py_lstrip (s : string) : string :=
  match s with
  | String c s' => if isspace c then py_lstrip s' else s
  | EmptyString => EmptyString
  end.

Fixpoint py_rstrip (s : string) : string :=
  match s with
  | String c s' =>
      match py_rstrip s' with
      | EmptyString => if isspace c then EmptyString else String c EmptyString
      | r => String c r
      end
  | EmptyString => EmptyString
  end.

(** [s.strip()] *)
Definition py_strip (s : string) : string := py_rstrip (py_lstrip s).

(** [s.replace(c, "")] for a single character [c]. *)
Fixpoint remove_char (c : ascii) (s : string) : string :=
  match s with
  | String x s' =>
      if Ascii.eqb x c then remove_char c s' else String x (remove_char c s')
  | EmptyString => EmptyString
  end.

Definition normalize_phone (p : string) : string :=
  let p := py_strip p in
  remove_char "-" (remove_char " " p).

(** ["".join([c for c in p if c.isdigit()])] *)
Fixpoint digits_of (p : string) : string :=
  match p with
  | String c p' => if isdigit c then String c (digits_of p') else digits_of p'
  | EmptyString => EmptyString
  end.

Definition is_valid_phone (p : string) : bool :=
  let digits := digits_of p in
  (9 <=? Z.of_nat (String.length digits))
  && (Z.of_nat (String.length digits) <=? 12).

(** ** Catalogue *)

Definition SERVICES : list (string * Z) :=
  [("Safety Tune ($99)", 99);
   ("Full Service ($189)", 189);
   ("Family / 2 Bikes ($299)", 299);
   ("Family / 3 Bikes ($420)", 420)]%string.

Definition ADDONS : list (string * Z) :=
  [("Tube install labour (+$35)", 35);
   ("Brake pads install labour (+$40)", 40);
   ("Chain install labour (+$40)", 40);
   ("Deep drivetrain clean (+$60)", 60);
   ("E-bike inspection (+$40)", 40)]%string.

Definition TRAVEL_ZONES : list (string * Z) :=
  [("Included area (no travel fee)", 0);
   ("Outside area (+$20 travel fee)", 20);
   ("Farther area (+$40 travel fee)", 40)]%string.

(** [d[k]]; [None] stands for KeyError. *)
Fixpoint dict_get (d : list (string * Z)) (k : string) : option Z :=
  match d with
  | [] => None
  | (k', v) :: d' => if String.eqb k' k then Some v else dict_get d' k
  end.

(** [sum(ADDONS[a] for a in addons_selected)] *)
Fixpoint addons_sum (addons_selected : list string) : option Z :=
  match addons_selected with
  | [] => Some 0
  | a :: rest =>
      match dict_get ADDONS a with
      | None => None
      | Some v =>
          match addons_sum rest with
          | None => None
          | Some t => Some (v + t)
          end
      end
  end.

(** [", ".join(l)] *)
Fixpoint join_comma (l : list string) : string :=
  match l with
  | [] => EmptyString
  | [a] => a
  | a :: rest => a ++ ", " ++ join_comma rest
  end.

(** ** The customer form *)

(** The values of the widgets of the customer tab when "Submit booking"
    is pressed.  The button is enabled only when a time slot is
    selected, so [form_booking_time] is a string. *)
Record Form : Type := mkForm {
  form_service_name : string;
  form_travel_zone : string;
  form_addons_selected : list string;
  form_booking_day : date;
  form_booking_time : string;
  form_customer_name : string;
  form_phone : string;
  form_suburb : string;
  form_address : string;
  form_bike_type : string;
  form_notes : string;
  form_consent : bool
}.

(** The three prices the page computes while it renders: the base price
    of the service, the travel fee and the sum of the add-ons.  [None]
    when a label is not in its price list. *)
Definition form_prices (f : Form) : option (Z * Z * Z) :=
  match dict_get SERVICES (form_service_name f),
        dict_get TRAVEL_ZONES (form_travel_zone f),
        addons_sum (form_addons_selected f) with
  | Some base, Some travel_fee, Some addons_price =>
      Some (base, travel_fee, addons_price)
  | _, _, _ => None
  end.

(** [total = SERVICES[service_name] + travel_fee + addons_price] *)
Definition form_total (f : Form) : option Z :=
  match form_prices f with
  | Some (base, travel_fee, addons_price) =>
      Some (base + travel_fee + addons_price)
  | None => None
  end.

(** [datetime.now().isoformat(timespec="seconds")], the clock reading
    given as its date and its time of day. *)
Definition isoformat_seconds (d : date) (t : time) : string :=
  isoformat d ++ "T" ++ fmt2 (hour t) ++ ":" ++ fmt2 (minute t) ++ ":"
  ++ fmt2 (second t).

Definition is_empty (s : string) : bool :=
  match s with
  | EmptyString => true
  | String _ _ => false
  end.

(** The list [errors] of the submit handler. *)
Definition validation_errors (conn : Store) (f : Form) : list string :=
  let p := normalize_phone (form_phone f) in
  (if is_empty (py_strip (form_customer_name f))
   then ["Name is required."] else [])
  ++ (if is_empty p then ["Phone is required."]
      else if negb (is_valid_phone p) then ["Phone number looks invalid."]
      else [])
  ++ (if is_empty (py_strip (form_suburb f))
      then ["Suburb is required."] else [])
  ++ (if negb (form_consent f)
      then ["You must confirm the details."] else [])
  ++ (if negb (is_empty (form_booking_time f))
         && slot_taken conn (isoformat (form_booking_day f))
              (form_booking_time f)
      then ["That time just got booked. Pick another slot."] else []).

(** The booking the handler builds when there is no error. *)
Definition form_booking (now_day : date) (now_time : time) (f : Form)
    (base travel_fee addons_price : Z) : Booking :=
  {| created_at := isoformat_seconds now_day now_time;
     customer_name := py_strip (form_customer_name f);
     phone := normalize_phone (form_phone f);
     suburb := py_strip (form_suburb f);
     address := py_strip (form_address f);
     bike_type := form_bike_type f;
     service_name := form_service_name f;
     service_price := base;
     addons :=
       match form_addons_selected f with
       | [] => "None"
       | _ :: _ => join_comma (form_addons_selected f)
       end;
     addons_price := addons_price;
     travel_zone := form_travel_zone f;
     travel_fee := travel_fee;
     booking_date := isoformat (form_booking_day f);
     booking_time := form_booking_time f;
     notes :=
       if is_empty (form_notes f) then EmptyString
       else py_strip (form_notes f);
     status := "new" |}.

Inductive submit_outcome : Type :=
| KeyError
| Rejected (errors : list string)
| Accepted (conn' : Store).

(** One run of the customer tab with the button pressed: the prices are
    looked up while the page renders, then the handler validates and,
    without errors, inserts. *)
Definition submit (conn : Store) (now_day : date) (now_time : time)
    (f : Form) : submit_outcome :=
  match form_prices f with
  | None => KeyError
  | Some (base, travel_fee, addons_price) =>
      match validation_errors conn f with
      | [] =>
          Accepted
            (insert_booking conn
               (form_booking now_day now_time f base travel_fee
                  addons_price))
      | e :: errors => Rejected (e :: errors)
      end
  end.

(** ** Further reference points *)

(** [l] is [l'] with some elements left out, the order kept. *)
Inductive subseq {A : Type} : list A -> list A -> Prop :=
| subseq_nil : subseq [] []
| subseq_skip (x : A) (l l' : list A) : subseq l l' -> subseq l (x :: l')
| subseq_keep (x : A) (l l' : list A) :
    subseq l l' -> subseq (x :: l) (x :: l').

(** The date and time of the bookings that hold a slot. *)
Definition active_slots (rows : list Row) : list (string * string) :=
  map (fun r => (booking_date (cols r), booking_time (cols r)))
      (filter (fun r => negb (String.eqb (status (cols r)) "cancelled")) rows).

(** No two bookings that are not cancelled share a date and time. *)
Definition no_double_booking (conn : Store) : Prop :=
  NoDup (active_slots (bookings conn)).

(** The number of [Create] operations in a run. *)
Definition count_creates (ops : list op) : nat :=
  List.length (filter (fun o => match o with Create _ => true | _ => false end)
                 ops).

(** The message of the last check of the submit handler. *)
Definition TAKEN_ERROR : string :=
  "That time just got booked. Pick another slot.".

(** The checks of the handler, as one condition. *)
Definition form_passes (conn : Store) (f : Form) : Prop :=
  py_strip (form_customer_name f) <> "" /\
  normalize_phone (form_phone f) <> "" /\
  is_valid_phone (normalize_phone (form_phone f)) = true /\
  py_strip (form_suburb f) <> "" /\
  form_consent f = true /\
  (form_booking_time f = "" \/
   slot_taken conn (isoformat (form_booking_day f)) (form_booking_time f)
   = false).

(** What [update_status] does to one row. *)
Definition with_status_if (k : Z) (s : string) (r : Row) : Row :=
  if id r =? k then mkRow (id r) (set_status (cols r) s) else r.

(** The handler when the table may change between its check and its
    insert: the check of line 276 reads [seen], the insert of line 301
    goes into [conn].  [submit conn] is [submit_between conn conn]. *)
Definition submit_between (seen conn : Store) (now_day : date)
    (now_time : time) (f : Form) : submit_outcome :=
  match form_prices f with
  | None => KeyError
  | Some (base, travel_fee, addons_price) =>
      match validation_errors seen f with
      | [] =>
          Accepted
            (insert_booking conn
               (form_booking now_day now_time f base travel_fee
                  addons_price))
      | e :: errors => Rejected (e :: errors)
      end
  end.

(** A booking with prices near the end of the 64-bit range. *)
Definition large_booking : Booking :=
  {| created_at := "2024-01-05T10:15:00";
     customer_name := "Alex";
     phone := "0412345678";
     suburb := "Carlton";
     address := "";
     bike_type := "Road";
     service_name := "Safety Tune ($99)";
     service_price := 4611686018427387904;
     addons := "None";
     addons_price := 4611686018427387904;
     travel_zone := "Included area (no travel fee)";
     travel_fee := 0;
     booking_date := "2024-01-08";
     booking_time := "10:00";
     notes := "";
     status := "new" |}.


(** The label of the minute [a] of the day. *)
Definition label_of_minute (a : Z) : string := label_hm (a / 60) (a mod 60).

Definition sample_form (t : string) : Form :=
  {| form_service_name := "Full Service ($189)";
     form_travel_zone := "Outside area (+$20 travel fee)";
     form_addons_selected :=
       ["Tube install labour (+$35)"; "E-bike inspection (+$40)"];
     form_booking_day := mkdate 2024 1 8;
     form_booking_time := t;
     form_customer_name := " Alex ";
     form_phone := "04 1234-5678";
     form_suburb := "Carlton";
     form_address := "";
     form_bike_type := "Road";
     form_notes := "";
     form_consent := true |}.

(** * Facts about the calendar *)

Lemma days_before_month_bounds (y m : Z) :
  1 <= m <= 12 ->
  0 <= days_before_month y m /\
  days_before_month y m + days_in_month y m
    <= 365 + (if is_leap y then 1 else 0).
Proof.
  intros Hm. unfold days_before_month, days_in_month.
  assert (Hc : m = 1 \/ m = 2 \/ m = 3 \/ m = 4 \/ m = 5 \/ m = 6 \/ m = 7
               \/ m = 8 \/ m = 9 \/ m = 10 \/ m = 11 \/ m = 12) by lia.
  destruct (is_leap y);
    repeat (destruct Hc as [-> | Hc]; [simpl; lia |]); subst; simpl; lia.
Qed.

Lemma days_before_year_succ (y : Z) :
  days_before_year (y + 1)
  = days_before_year y + 365 + (if is_leap y then 1 else 0).
Proof.
  unfold days_before_year, is_leap. cbv zeta.
  replace (y + 1 - 1) with y by lia.
  destruct (y mod 4 =? 0) eqn:E4; destruct (y mod 100 =? 0) eqn:E100;
    destruct (y mod 400 =? 0) eqn:E400; simpl;
    rewrite ?Z.eqb_eq, ?Z.eqb_neq in *;
    Z.div_mod_to_equations; lia.
Qed.

Lemma days_before_year_mono (y y' : Z) :
  y <= y' -> days_before_year y <= days_before_year y'.
Proof.
  intros H. unfold days_before_year. cbv zeta.
  Z.div_mod_to_equations. lia.
Qed.

Lemma toordinal_range (d : date) :
  valid_date d -> 1 <= toordinal d <= MAXORDINAL.
Proof.
  intros (Hy & Hm & Hd). unfold toordinal, MINYEAR, MAXYEAR in *.
  pose proof (days_before_month_bounds (year d) _ Hm) as [Hb0 Hb1].
  pose proof (days_before_year_succ (year d)) as Hs.
  pose proof (days_before_year_mono 1 (year d) ltac:(lia)) as Hlo.
  pose proof (days_before_year_mono (year d + 1) 10000 ltac:(lia)) as Hhi.
  change (days_before_year 1) with 0 in Hlo.
  change (days_before_year 10000) with 3652059 in Hhi.
  unfold MAXORDINAL. lia.
Qed.

Lemma time_us_range (t : time) :
  valid_time t -> 0 <= time_us t < US_PER_DAY.
Proof.
  intros (Hh & Hm & Hs & Hu). unfold time_us, US_PER_DAY. lia.
Qed.

Lemma time_of_us_time_us (t : time) :
  valid_time t -> time_of_us (time_us t) = t.
Proof.
  intros (Hh & Hm & Hs & Hu). destruct t as [h m s u]; simpl in *.
  unfold time_of_us, time_us; simpl.
  f_equal; Z.div_mod_to_equations; lia.
Qed.

Lemma time_of_us_valid (u : Z) :
  0 <= u < US_PER_DAY -> valid_time (time_of_us u).
Proof.
  unfold US_PER_DAY, valid_time, time_of_us; simpl. intros Hu.
  repeat split; Z.div_mod_to_equations; lia.
Qed.

Lemma time_us_time_of_us (u : Z) :
  0 <= u < US_PER_DAY -> time_us (time_of_us u) = u.
Proof.
  unfold US_PER_DAY, time_of_us, time_us; simpl. intros Hu.
  Z.div_mod_to_equations. lia.
Qed.

Lemma datetime_us_of_us (u : Z) : datetime_us (datetime_of_us u) = u.
Proof.
  unfold datetime_us, datetime_of_us; simpl.
  rewrite time_us_time_of_us.
  - unfold US_PER_DAY. Z.div_mod_to_equations. lia.
  - apply Z.mod_pos_bound. reflexivity.
Qed.

Lemma datetime_of_us_valid (u : Z) :
  US_PER_DAY <= u < (MAXORDINAL + 1) * US_PER_DAY ->
  valid_datetime (datetime_of_us u).
Proof.
  intros Hu. split; simpl.
  - unfold US_PER_DAY, MAXORDINAL in *. Z.div_mod_to_equations. lia.
  - apply time_of_us_valid, Z.mod_pos_bound. reflexivity.
Qed.

Lemma datetime_us_range (dt : datetime) :
  valid_datetime dt ->
  US_PER_DAY <= datetime_us dt < (MAXORDINAL + 1) * US_PER_DAY.
Proof.
  intros [Ho Ht]. apply time_us_range in Ht. unfold datetime_us.
  unfold US_PER_DAY, MAXORDINAL in *. lia.
Qed.

(** The field-wise comparison agrees with the order of the time line. *)
Lemma datetime_le_us (a b : datetime) :
  valid_datetime a -> valid_datetime b ->
  datetime_le a b = (datetime_us a <=? datetime_us b).
Proof.
  intros [_ (Hh & Hm & Hs & Hu)] [_ (Hh' & Hm' & Hs' & Hu')].
  unfold datetime_le, datetime_key, datetime_us, time_us, US_PER_DAY.
  destruct a as [oa [h m s u]], b as [ob [h' m' s' u']]; simpl in *.
  repeat match goal with
         | |- context [?x <? ?y] => destruct (Z.ltb_spec x y)
         | |- context [?x =? ?y] => destruct (Z.eqb_spec x y)
         end; simpl;
    symmetry; first [apply Z.leb_le | apply Z.leb_gt]; lia.
Qed.

Lemma combine_valid (d : date) (t : time) :
  valid_date d -> valid_time t -> valid_datetime (combine d t).
Proof.
  intros Hd Ht. split; simpl; auto using toordinal_range.
Qed.

(** [dt + timedelta(minutes=k)] lands [k] minutes further on the time
    line whenever that point is representable, and raises otherwise. *)
Lemma add_minutes_ok (dt : datetime) (k : Z) :
  US_PER_DAY <= datetime_us dt + k * US_PER_MINUTE
             < (MAXORDINAL + 1) * US_PER_DAY ->
  exists r, add_minutes dt k = Ok r /\ valid_datetime r /\
            datetime_us r = datetime_us dt + k * US_PER_MINUTE.
Proof.
  intros Hr. unfold add_minutes. cbv zeta.
  pose proof (datetime_of_us_valid _ Hr) as Hv.
  destruct Hv as [Ho Ht].
  replace (0 <? _) with true by (symmetry; apply Z.ltb_lt; lia).
  replace (_ <=? MAXORDINAL) with true by (symmetry; apply Z.leb_le; lia).
  simpl. eexists; split; [reflexivity|]. split; [split; assumption|].
  apply datetime_us_of_us.
Qed.

Lemma add_minutes_overflow (dt : datetime) (k : Z) :
  ~ (US_PER_DAY <= datetime_us dt + k * US_PER_MINUTE
                < (MAXORDINAL + 1) * US_PER_DAY) ->
  add_minutes dt k = Raise OverflowError.
Proof.
  intros Hr. unfold add_minutes. cbv zeta.
  destruct (_ && _) eqn:E; [|reflexivity].
  exfalso. apply Hr. apply andb_true_iff in E as [E1 E2].
  apply Z.ltb_lt in E1. apply Z.leb_le in E2.
  simpl in E1, E2. unfold US_PER_DAY, MAXORDINAL in *.
  Z.div_mod_to_equations. lia.
Qed.

Lemma datetime_of_us_us (dt : datetime) :
  valid_datetime dt -> datetime_of_us (datetime_us dt) = dt.
Proof.
  intros [Ho Ht]. pose proof (time_us_range _ Ht) as Hr.
  destruct dt as [o t]; simpl in *.
  unfold datetime_of_us, datetime_us; simpl.
  assert (Hq : (o * US_PER_DAY + time_us t) / US_PER_DAY = o).
  { unfold US_PER_DAY in *. Z.div_mod_to_equations. lia. }
  assert (Hm : (o * US_PER_DAY + time_us t) mod US_PER_DAY = time_us t).
  { unfold US_PER_DAY in *. Z.div_mod_to_equations. lia. }
  rewrite Hq, Hm, time_of_us_time_us by assumption. reflexivity.
Qed.

Lemma days_before_month_step (y m1 m2 : Z) :
  1 <= m1 -> m1 < m2 -> m2 <= 12 ->
  days_before_month y m1 + days_in_month y m1 <= days_before_month y m2.
Proof.
  intros H1 H12 H2. unfold days_before_month, days_in_month.
  assert (Hc1 : m1 = 1 \/ m1 = 2 \/ m1 = 3 \/ m1 = 4 \/ m1 = 5 \/ m1 = 6
                \/ m1 = 7 \/ m1 = 8 \/ m1 = 9 \/ m1 = 10 \/ m1 = 11) by lia.
  assert (Hc2 : m2 = 2 \/ m2 = 3 \/ m2 = 4 \/ m2 = 5 \/ m2 = 6 \/ m2 = 7
                \/ m2 = 8 \/ m2 = 9 \/ m2 = 10 \/ m2 = 11 \/ m2 = 12) by lia.
  destruct (is_leap y);
    repeat (destruct Hc1 as [-> | Hc1]);
    repeat (destruct Hc2 as [-> | Hc2]);
    subst; try lia; simpl; lia.
Qed.

(** A later calendar date has a larger ordinal. *)
Lemma toordinal_lt (d1 d2 : date) :
  valid_date d1 -> valid_date d2 ->
  year d1 < year d2 \/
  (year d1 = year d2 /\
   (month d1 < month d2 \/ (month d1 = month d2 /\ day d1 < day d2))) ->
  toordinal d1 < toordinal d2.
Proof.
  intros (Hy1 & Hm1 & Hd1) (Hy2 & Hm2 & Hd2) Hlt. unfold toordinal.
  pose proof (days_before_month_bounds (year d1) _ Hm1) as [Ha1 Hb1].
  pose proof (days_before_month_bounds (year d2) _ Hm2) as [Ha2 Hb2].
  destruct Hlt as [Hy | (Hy & [Hm | (Hm & Hd)])].
  - pose proof (days_before_year_succ (year d1)) as Hs.
    pose proof (days_before_year_mono (year d1 + 1) (year d2) ltac:(lia)).
    lia.
  - rewrite Hy in *.
    pose proof (days_before_month_step (year d2) (month d1) (month d2)
                  ltac:(lia) Hm ltac:(lia)).
    lia.
  - rewrite Hy, Hm in *. lia.
Qed.

Ltac ordinal_below H :=
  match goal with
  | |- context [toordinal ?a <? toordinal ?b] =>
      replace (toordinal a <? toordinal b) with true
        by (symmetry; apply Z.ltb_lt; apply H; lia);
      reflexivity
  end.

Ltac ordinal_above H :=
  match goal with
  | |- context [toordinal ?a <? toordinal ?b] =>
      assert (toordinal b < toordinal a) by (apply H; lia);
      replace (toordinal a <? toordinal b) with false
        by (symmetry; apply Z.ltb_ge; lia);
      replace (toordinal a =? toordinal b) with false
        by (symmetry; apply Z.eqb_neq; lia);
      reflexivity
  end.

(** The datetime of the source compares year, month, day, hour, minute,
    second and microsecond in that order; on the ordinal and the time of
    day the answer is the same. *)
Lemma datetime_le_fieldwise (d1 d2 : date) (t1 t2 : time) :
  valid_date d1 -> valid_date d2 ->
  datetime_le (combine d1 t1) (combine d2 t2)
  = lex_leb
      [year d1; month d1; day d1; hour t1; minute t1; second t1;
       microsecond t1]
      [year d2; month d2; day d2; hour t2; minute t2; second t2;
       microsecond t2].
Proof.
  intros H1 H2. unfold datetime_le, datetime_key, combine.
  cbn [ordinal tod lex_leb].
  set (rest := (hour t1 <? hour t2) || _).
  pose proof (toordinal_lt d1 d2 H1 H2) as H12.
  pose proof (toordinal_lt d2 d1 H2 H1) as H21.
  destruct (Z.ltb_spec (year d1) (year d2)); simpl; [ordinal_below H12|].
  destruct (Z.eqb_spec (year d1) (year d2)) as [Ey | Ey]; simpl;
    [|ordinal_above H21].
  destruct (Z.ltb_spec (month d1) (month d2)); simpl; [ordinal_below H12|].
  destruct (Z.eqb_spec (month d1) (month d2)) as [Em | Em]; simpl;
    [|ordinal_above H21].
  destruct (Z.ltb_spec (day d1) (day d2)); simpl; [ordinal_below H12|].
  destruct (Z.eqb_spec (day d1) (day d2)) as [Ed | Ed]; simpl;
    [|ordinal_above H21].
  assert (E : toordinal d1 = toordinal d2)
    by (unfold toordinal; rewrite Ey, Em, Ed; reflexivity).
  rewrite E, Z.ltb_irrefl, Z.eqb_refl. reflexivity.
Qed.

(** * The slot generator *)

Section SlotsLoop.

Variable k : Z.
Variable end_dt : datetime.
Hypothesis k_pos : 0 < k.
Hypothesis end_valid : valid_datetime end_dt.

Lemma slots_loop_labels (fuel : nat) :
  forall (dt : datetime) (slots : list string),
    valid_datetime dt ->
    Z.max (datetime_us dt) (datetime_us end_dt) + k * US_PER_MINUTE
      < (MAXORDINAL + 1) * US_PER_DAY ->
    (Z.to_nat ((datetime_us end_dt - datetime_us dt) / (k * US_PER_MINUTE))
     < fuel)%nat ->
    slots_loop fuel k end_dt dt slots
    = Ok (slots ++
          map (fun i => strftime_HM
                 (tod (datetime_of_us
                         (datetime_us dt + Z.of_nat i * (k * US_PER_MINUTE)))))
              (seq 0 (Z.to_nat ((datetime_us end_dt - datetime_us dt)
                                / (k * US_PER_MINUTE)))))%list.
Proof.
  set (step := k * US_PER_MINUTE). set (e := datetime_us end_dt).
  assert (Hstep : 0 < step) by (unfold step, US_PER_MINUTE; lia).
  induction fuel as [|fuel IH]; intros dt slots Hdt Hov Hfuel; [lia|].
  pose proof (datetime_us_range _ Hdt) as Ha.
  simpl.
  destruct (add_minutes_ok dt k) as (r & -> & Hr & Hus); [fold step; lia|].
  fold step in Hus. simpl.
  rewrite (datetime_le_us r end_dt Hr end_valid), Hus. fold e.
  destruct (Z.leb_spec (datetime_us dt + step) e) as [Hle | Hgt].
  - assert (Hq : (e - datetime_us dt) / step
                 = (e - datetime_us r) / step + 1).
    { rewrite Hus.
      replace (e - datetime_us dt) with (e - (datetime_us dt + step) + 1 * step)
        by lia.
      rewrite Z.div_add by lia. reflexivity. }
    assert (Hq0 : 0 <= (e - datetime_us r) / step)
      by (apply Z.div_pos; lia).
    rewrite IH; [| assumption | lia | lia].
    rewrite Hq, Z2Nat.inj_add, Nat.add_comm by lia.
    change (Z.to_nat 1) with 1%nat. cbn [Nat.add seq map].
    rewrite <- app_assoc. cbn [app]. do 3 f_equal.
    + rewrite <- (datetime_of_us_us dt Hdt) at 1.
      unfold datetime_of_us. cbn [tod]. do 3 f_equal. lia.
    + rewrite <- seq_shift, map_map. apply map_ext. intros i.
      rewrite Hus. unfold datetime_of_us. cbn [tod]. do 3 f_equal. lia.
  - assert (Hq : (e - datetime_us dt) / step <= 0).
    { destruct (Z.lt_ge_cases (e - datetime_us dt) 0) as [Hn | Hp].
      - pose proof (Z.div_lt_upper_bound (e - datetime_us dt) step 0 Hstep).
        lia.
      - rewrite Z.div_small by lia. lia. }
    replace (Z.to_nat _) with 0%nat by lia. simpl.
    rewrite app_nil_r. reflexivity.
Qed.

End SlotsLoop.

Lemma mem_Z_In (x : Z) (l : list Z) : mem_Z x l = true <-> In x l.
Proof.
  unfold mem_Z. rewrite existsb_exists. split.
  - intros (y & Hy & E). apply Z.eqb_eq in E. subst. assumption.
  - intros H. exists x. split; [assumption | apply Z.eqb_refl].
Qed.

(** The general behaviour of [generate_slots] on a work day. *)

(** How many whole steps fit between [S] and [E]. *)
Lemma steps_fit (S E step : Z) :
  0 < step ->
  let n := Z.to_nat ((E - S) / step) in
  (forall i, (i < n)%nat -> S + (Z.of_nat i + 1) * step <= E) /\
  E < S + (Z.of_nat n + 1) * step.
Proof.
  intros Hstep n.
  pose proof (Z.mul_div_le (E - S) step Hstep) as Hlo.
  pose proof (Z.mul_succ_div_gt (E - S) step Hstep) as Hhi.
  set (q := (E - S) / step) in *.
  assert (Hn : Z.of_nat n = Z.max 0 q) by (unfold n; lia).
  split.
  - intros i Hi.
    assert (Hiq : Z.of_nat i + 1 <= q) by lia.
    pose proof (Z.mul_le_mono_nonneg_r _ _ step ltac:(lia) Hiq). lia.
  - assert (Hqn : q <= Z.of_nat n) by lia.
    pose proof (Z.mul_le_mono_nonneg_r _ _ step ltac:(lia) Hqn). lia.
Qed.

(** The general behaviour of [generate_slots] on a work day. *)
Lemma generate_slots_general (cfg : Settings) (d : date) :
  let S := time_us (DAY_START cfg) in
  let E := time_us (DAY_END cfg) in
  let step := SLOT_MINUTES cfg * US_PER_MINUTE in
  let n := Z.to_nat ((E - S) / step) in
  valid_date d ->
  valid_time (DAY_START cfg) -> valid_time (DAY_END cfg) ->
  In (weekday d) (WORK_DAYS cfg) ->
  0 < SLOT_MINUTES cfg ->
  toordinal d * US_PER_DAY + Z.max S E + step
    < (MAXORDINAL + 1) * US_PER_DAY ->
  generate_slots cfg d = Ok (slot_labels S step n).
Proof.
  intros S E step n Hd Hs He Hw Hk Hov.
  assert (Hstep : 0 < step) by (unfold step, US_PER_MINUTE; lia).
  pose proof (time_us_range _ Hs) as HS. pose proof (time_us_range _ He) as HE.
  fold S in HS. fold E in HE.
  destruct (steps_fit S E step Hstep) as [Hfit _]. fold n in Hfit.
  unfold generate_slots.
  apply mem_Z_In in Hw. rewrite Hw. cbn [negb].
  pose proof (combine_valid d _ Hd Hs) as Hvs.
  pose proof (combine_valid d _ Hd He) as Hve.
  assert (Hds : datetime_us (combine d (DAY_START cfg))
                = toordinal d * US_PER_DAY + S) by reflexivity.
  assert (Hde : datetime_us (combine d (DAY_END cfg))
                = toordinal d * US_PER_DAY + E) by reflexivity.
  assert (Hdiff : datetime_us (combine d (DAY_END cfg))
                  - datetime_us (combine d (DAY_START cfg)) = E - S) by lia.
  rewrite slots_loop_labels; try assumption.
  - fold step. rewrite Hdiff. fold n. cbn [app]. f_equal.
    unfold slot_labels. apply map_ext_in. intros i Hi.
    apply in_seq in Hi. unfold label_of_us. f_equal.
    rewrite Hds. unfold datetime_of_us. cbn [tod]. f_equal.
    assert (Hi' : S + (Z.of_nat i + 1) * step <= E) by (apply Hfit; lia).
    assert (Hpos : 0 <= Z.of_nat i * step) by (apply Z.mul_nonneg_nonneg; lia).
    assert (Hr : 0 <= S + Z.of_nat i * step < US_PER_DAY) by lia.
    rewrite <- Z.add_assoc, Z.add_comm, Z.mod_add by (unfold US_PER_DAY; lia).
    apply Z.mod_small. exact Hr.
  - fold step. lia.
  - fold step. rewrite Hdiff. fold n. unfold SLOT_FUEL.
    assert (Hq : (E - S) / step < 1441); [| lia].
    apply Z.div_lt_upper_bound; [lia|].
    unfold step, US_PER_MINUTE, US_PER_DAY in *. lia.
Qed.

Lemma generate_slots_settings (d : date) :
  valid_date d -> In (weekday d) (WORK_DAYS settings) ->
  generate_slots settings d
  = Ok ["09:00"; "10:00"; "11:00"; "12:00"; "13:00"; "14:00"; "15:00";
        "16:00"; "17:00"].
Proof.
  intros Hd Hw.
  rewrite generate_slots_general; try assumption.
  - vm_compute. reflexivity.
  - vm_compute. intuition discriminate.
  - vm_compute. intuition discriminate.
  - reflexivity.
  - pose proof (toordinal_range d Hd) as Ho.
    change (time_us (DAY_START settings)) with 32400000000.
    change (time_us (DAY_END settings)) with 64800000000.
    change (SLOT_MINUTES settings * US_PER_MINUTE) with 3600000000.
    unfold MAXORDINAL, US_PER_DAY in *. lia.
Qed.

(** * Parsing the labels the generator writes *)

Lemma In_Zrange (n : nat) (x : Z) :
  0 <= x < Z.of_nat n -> In x (Zrange n).
Proof.
  intros Hx. unfold Zrange. apply in_map_iff.
  exists (Z.to_nat x). split; [lia | apply in_seq; lia].
Qed.

Lemma parse_label_check_all :
  forallb (fun h => forallb (parse_label_check h) (Zrange 60)) (Zrange 24)
  = true.
Proof. vm_compute. reflexivity. Qed.

Lemma parse_label_label_hm (h m : Z) :
  0 <= h <= 23 -> 0 <= m <= 59 ->
  parse_label (label_hm h m) = Ok (mktime h m 0 0).
Proof.
  intros Hh Hm.
  pose proof parse_label_check_all as Hall.
  rewrite forallb_forall in Hall.
  specialize (Hall h (In_Zrange 24 h ltac:(lia))).
  rewrite forallb_forall in Hall.
  specialize (Hall m (In_Zrange 60 m ltac:(lia))).
  unfold parse_label_check in Hall.
  destruct (parse_label (label_hm h m)) as [[h' m' s' u'] | |];
    try discriminate.
  simpl in Hall. rewrite !andb_true_iff, !Z.eqb_eq in Hall.
  destruct Hall as [[[-> ->] ->] ->]. reflexivity.
Qed.

Lemma py_int_returns (s : string) : py_int s <> OutOfFuel.
Proof.
  unfold py_int.
  destruct (match lstrip s with
            | String c r =>
                if Ascii.eqb c "+" then (1, r)
                else if Ascii.eqb c "-" then (-1, r) else (1, lstrip s)
            | EmptyString => (1, lstrip s)
            end) as [sign s2].
  assert (H : match scan_digits s2 false 0 0 with
              | None => Raise ValueError
              | Some (v, n, rest) =>
                  match n, lstrip rest with
                  | O, _ => Raise ValueError
                  | _, String _ _ => Raise ValueError
                  | _, EmptyString =>
                      if Nat.ltb MAX_STR_DIGITS n then Raise ValueError
                      else Ok (sign * v)
                  end
              end <> OutOfFuel).
  { destruct (scan_digits s2 false 0 0) as [[[v n] rest]|]; [|discriminate].
    destruct n; [discriminate|].
    destruct (lstrip rest); [|discriminate].
    destruct (Nat.ltb _ _); discriminate. }
  destruct s2 as [|c r]; [exact H|].
  destruct c as [[] [] [] [] [] [] [] []]; try exact H; discriminate.
Qed.

Lemma time_of_returns (h m : Z) : time_of h m <> OutOfFuel.
Proof.
  unfold time_of. destruct (_ && _); [destruct (_ && _)|]; discriminate.
Qed.

(** The [try] block either produces a time or raises: it always ends. *)
Lemma parse_label_returns (s : string) : parse_label s <> OutOfFuel.
Proof.
  unfold parse_label.
  destruct (split_colon s) as [|hh [|mm [|x l]]]; try discriminate.
  pose proof (py_int_returns hh). pose proof (py_int_returns mm).
  destruct (py_int hh) as [h| |]; simpl; try congruence.
  destruct (py_int mm) as [m| |]; simpl; try congruence.
  apply time_of_returns.
Qed.

Lemma time_of_ok (h m : Z) (t : time) :
  time_of h m = Ok t <->
  0 <= h <= 23 /\ 0 <= m <= 59 /\ t = mktime h m 0 0.
Proof.
  unfold time_of.
  destruct (Z.leb_spec 0 h); destruct (Z.leb_spec h 23);
    destruct (Z.leb_spec 0 m); destruct (Z.leb_spec m 59); simpl;
    split; try discriminate; try (intros; exfalso; lia).
  - intros Ht; inversion Ht. repeat split; lia.
  - intros (_ & _ & ->). reflexivity.
Qed.

(** What it takes for a label to parse: two fields around one colon,
    both read by [int], the first an hour and the second a minute. *)
Lemma parse_label_ok (s : string) (t : time) :
  parse_label s = Ok t <->
  exists hh mm h m,
    split_colon s = [hh; mm] /\ py_int hh = Ok h /\ py_int mm = Ok m /\
    0 <= h <= 23 /\ 0 <= m <= 59 /\ t = mktime h m 0 0.
Proof.
  unfold parse_label. split.
  - destruct (split_colon s) as [|hh [|mm [|x l]]]; try discriminate.
    destruct (py_int hh) as [h| |] eqn:Ehh; simpl; try discriminate.
    destruct (py_int mm) as [m| |] eqn:Emm; simpl; try discriminate.
    intros H. apply time_of_ok in H as (Hh & Hm & ->).
    exists hh, mm, h, m. tauto.
  - intros (hh & mm & h & m & -> & -> & -> & Hh & Hm & ->). simpl.
    apply time_of_ok. tauto.
Qed.

(** * The lead-time check *)


Lemma lead_time_ok_malformed (cfg : Settings) (now : datetime) (d : date)
    (s : string) :
  (forall t, parse_label s <> Ok t) ->
  lead_time_ok cfg now d s = Ok true.
Proof.
  intros Hbad. unfold lead_time_ok.
  pose proof (parse_label_returns s) as Hret.
  destruct (parse_label s) as [t | e |]; simpl.
  - exfalso. apply (Hbad t). reflexivity.
  - reflexivity.
  - congruence.
Qed.

Lemma lead_time_ok_label (cfg : Settings) (now : datetime) (d : date)
    (h m : Z) :
  valid_date d -> valid_datetime now ->
  0 <= h <= 23 -> 0 <= m <= 59 ->
  US_PER_DAY <= datetime_us now + MIN_LEAD_TIME_MINUTES cfg * US_PER_MINUTE
             < LIMIT_US ->
  lead_time_ok cfg now d (label_hm h m)
  = Ok (datetime_us now + MIN_LEAD_TIME_MINUTES cfg * US_PER_MINUTE
        <=? slot_start_us d h m).
Proof.
  intros Hd Hnow Hh Hm Hov. unfold lead_time_ok.
  rewrite parse_label_label_hm by assumption. simpl.
  destruct (add_minutes_ok now (MIN_LEAD_TIME_MINUTES cfg) Hov)
    as (limit & -> & Hv & Hus).
  simpl. f_equal. unfold datetime_ge.
  rewrite datetime_le_us, Hus; [reflexivity | assumption |].
  apply combine_valid; [assumption|].
  repeat split; simpl; lia.
Qed.

Lemma lead_time_ok_label_overflow (cfg : Settings) (now : datetime) (d : date)
    (h m : Z) :
  0 <= h <= 23 -> 0 <= m <= 59 ->
  ~ (US_PER_DAY <= datetime_us now + MIN_LEAD_TIME_MINUTES cfg * US_PER_MINUTE
                < LIMIT_US) ->
  lead_time_ok cfg now d (label_hm h m) = Raise OverflowError.
Proof.
  intros Hh Hm Hov. unfold lead_time_ok.
  rewrite parse_label_label_hm by assumption. simpl.
  rewrite add_minutes_overflow by exact Hov. reflexivity.
Qed.

Lemma label_hm_inj (h m h' m' : Z) :
  0 <= h <= 23 -> 0 <= m <= 59 -> 0 <= h' <= 23 -> 0 <= m' <= 59 ->
  label_hm h m = label_hm h' m' -> h = h' /\ m = m'.
Proof.
  intros Hh Hm Hh' Hm' E.
  pose proof (parse_label_label_hm h m Hh Hm) as P.
  rewrite E, parse_label_label_hm in P by assumption.
  inversion P. split; reflexivity.
Qed.

(** * The comprehension over [lead_time_ok] *)

Lemma filter_lead_time_sublist (cfg : Settings) (clock : nat -> datetime)
    (d : date) (slots : list string) :
  forall call out,
    filter_lead_time cfg clock call d slots = Ok out ->
    forall s, In s out -> In s slots.
Proof.
  induction slots as [|x rest IH]; intros call out H s Hs; simpl in H.
  - inversion H; subst. assumption.
  - destruct (lead_time_ok cfg (clock call) d x) as [b| |]; simpl in H;
      try discriminate.
    destruct (filter_lead_time cfg clock (S call) d rest) as [out'| |] eqn:E;
      simpl in H; try discriminate.
    inversion H; subst; clear H.
    destruct b; simpl in Hs.
    + destruct Hs as [-> | Hs]; [left; reflexivity | right; eauto].
    + right; eauto.
Qed.

Section LeadTimeFilter.

Variable cfg : Settings.
Variable clock : nat -> datetime.
Variable d : date.
Variables t0 t1 : Z.

Hypothesis d_valid : valid_date d.
Hypothesis lead_pos : 0 < MIN_LEAD_TIME_MINUTES cfg.
Hypothesis clock_valid : forall k, valid_datetime (clock k).
Hypothesis clock_bounds : forall k, t0 <= datetime_us (clock k) <= t1.
Hypothesis no_overflow :
  t1 + MIN_LEAD_TIME_MINUTES cfg * US_PER_MINUTE < LIMIT_US.

Lemma clock_in_range (k : nat) :
  US_PER_DAY <= datetime_us (clock k) + MIN_LEAD_TIME_MINUTES cfg * US_PER_MINUTE
             < LIMIT_US.
Proof.
  pose proof (datetime_us_range _ (clock_valid k)).
  pose proof (clock_bounds k).
  unfold US_PER_MINUTE in *. lia.
Qed.

Lemma filter_lead_time_labels (slots : list string) :
  Forall well_formed_label slots ->
  forall call,
  exists out,
    filter_lead_time cfg clock call d slots = Ok out /\
    (forall h m, 0 <= h <= 23 -> 0 <= m <= 59 ->
       In (label_hm h m) out ->
       t0 + MIN_LEAD_TIME_MINUTES cfg * US_PER_MINUTE <= slot_start_us d h m) /\
    (forall h m, 0 <= h <= 23 -> 0 <= m <= 59 ->
       In (label_hm h m) slots ->
       t1 + MIN_LEAD_TIME_MINUTES cfg * US_PER_MINUTE <= slot_start_us d h m ->
       In (label_hm h m) out).
Proof.
  induction 1 as [|x rest Hx Hrest IH]; intros call.
  - exists []. simpl. repeat split; intros; tauto.
  - destruct Hx as (hx & mx & Hhx & Hmx & ->).
    destruct (IH (S call)) as (out & Hout & Hsound & Hcomplete).
    pose proof (clock_in_range call) as Hr.
    pose proof (clock_bounds call) as Hb.
    cbn [filter_lead_time].
    rewrite (lead_time_ok_label cfg (clock call) d hx mx)
      by (auto; exact Hr).
    rewrite Hout. cbn [bind].
    destruct (Z.leb_spec (datetime_us (clock call) + MIN_LEAD_TIME_MINUTES cfg * US_PER_MINUTE)
                (slot_start_us d hx mx)) as [Hle | Hgt].
    + eexists; split; [reflexivity|]. split.
      * intros h m Hh Hm [E | Hin]; [| auto].
        apply label_hm_inj in E as [-> ->]; try assumption. lia.
      * intros h m Hh Hm [E | Hin] Hlate; [left; exact E | right; auto].
    + eexists; split; [reflexivity|]. split.
      * intros h m Hh Hm Hin. auto.
      * intros h m Hh Hm [E | Hin] Hlate; [| auto].
        apply label_hm_inj in E as [-> ->]; try assumption. lia.
Qed.

End LeadTimeFilter.

Lemma add_minutes_valid (dt r : datetime) (k : Z) :
  add_minutes dt k = Ok r -> valid_datetime r.
Proof.
  unfold add_minutes. cbv zeta.
  destruct (_ && _) eqn:E; [|discriminate].
  intros H; inversion H; subst; clear H.
  apply andb_true_iff in E as [E1 E2].
  apply Z.ltb_lt in E1. apply Z.leb_le in E2.
  split; [lia|]. simpl.
  apply time_of_us_valid, Z.mod_pos_bound. reflexivity.
Qed.

Lemma strftime_HM_well_formed (t : time) :
  valid_time t -> well_formed_label (strftime_HM t).
Proof.
  intros (Hh & Hm & _). exists (hour t), (minute t).
  repeat split; try lia.
Qed.

Lemma slots_loop_well_formed (k : Z) (end_dt : datetime) (fuel : nat) :
  forall dt acc slots,
    valid_datetime dt -> Forall well_formed_label acc ->
    slots_loop fuel k end_dt dt acc = Ok slots ->
    Forall well_formed_label slots.
Proof.
  induction fuel as [|fuel IH]; intros dt acc slots Hdt Hacc H; simpl in H;
    [discriminate|].
  destruct (add_minutes dt k) as [r| |] eqn:E; simpl in H; try discriminate.
  destruct (datetime_le r end_dt).
  - apply (IH r _ _ (add_minutes_valid _ _ _ E)) in H; [assumption|].
    apply Forall_app. split; [assumption|].
    constructor; [|constructor].
    apply strftime_HM_well_formed, Hdt.
  - inversion H; subst. assumption.
Qed.

Lemma generate_slots_well_formed (cfg : Settings) (d : date)
    (slots : list string) :
  valid_date d -> valid_time (DAY_START cfg) ->
  generate_slots cfg d = Ok slots ->
  Forall well_formed_label slots.
Proof.
  intros Hd Hs. unfold generate_slots.
  destruct (negb _).
  - intros H; inversion H; constructor.
  - apply slots_loop_well_formed; [|constructor].
    apply combine_valid; assumption.
Qed.

(** * The availability filter *)

(** Whatever the filter returns was generated for the day and is not
    taken. *)
Lemma free_slots_sound (cfg : Settings) (conn : Store)
    (clock : nat -> datetime) (d : date) (offered : list string) :
  free_slots cfg conn clock d = Ok offered ->
  forall s, In s offered ->
    slot_taken conn (isoformat d) s = false /\
    exists slots, generate_slots cfg d = Ok slots /\ In s slots.
Proof.
  unfold free_slots. intros H s Hs.
  destruct (generate_slots cfg d) as [slots| |]; simpl in H; try discriminate.
  destruct slots as [|x rest] eqn:Es.
  - inversion H; subst. destruct Hs.
  - rewrite <- Es in *.
    assert (Hin : In s (filter (fun s0 =>
                     negb (slot_taken conn (isoformat d) s0)) slots)).
    { destruct (MIN_LEAD_TIME_MINUTES cfg >? 0).
      - eapply filter_lead_time_sublist; eassumption.
      - inversion H; subst. assumption. }
    apply filter_In in Hin as [Hin Hfree].
    split; [apply negb_true_iff; exact Hfree|].
    exists slots. split; [reflexivity | assumption].
Qed.

Section FreeSlots.

Variable cfg : Settings.
Variable conn : Store.
Variable clock : nat -> datetime.
Variable d : date.
Variables t0 t1 : Z.
Variable slots : list string.

Hypothesis d_valid : valid_date d.
Hypothesis start_valid : valid_time (DAY_START cfg).
Hypothesis generated : generate_slots cfg d = Ok slots.
Hypothesis lead_pos : 0 < MIN_LEAD_TIME_MINUTES cfg.
Hypothesis clock_valid : forall k, valid_datetime (clock k).
Hypothesis clock_bounds : forall k, t0 <= datetime_us (clock k) <= t1.
Hypothesis no_overflow :
  t1 + MIN_LEAD_TIME_MINUTES cfg * US_PER_MINUTE < LIMIT_US.

(** With a clock that stays between [t0] and [t1], the filter returns;
    nothing it returns starts before [t0] plus the lead time, and every
    free slot starting at or after [t1] plus the lead time is returned. *)
Lemma free_slots_lead_time :
  exists offered,
    free_slots cfg conn clock d = Ok offered /\
    (forall h m, 0 <= h <= 23 -> 0 <= m <= 59 ->
       In (label_hm h m) offered ->
       t0 + MIN_LEAD_TIME_MINUTES cfg * US_PER_MINUTE <= slot_start_us d h m) /\
    (forall h m, 0 <= h <= 23 -> 0 <= m <= 59 ->
       In (label_hm h m) slots ->
       slot_taken conn (isoformat d) (label_hm h m) = false ->
       t1 + MIN_LEAD_TIME_MINUTES cfg * US_PER_MINUTE <= slot_start_us d h m ->
       In (label_hm h m) offered).
Proof.
  pose proof (generate_slots_well_formed cfg d slots d_valid start_valid
                generated) as Hwf.
  unfold free_slots. rewrite generated. cbn [bind].
  destruct slots as [|x rest] eqn:Es.
  - exists []. repeat split; intros; simpl in *; tauto.
  - rewrite <- Es in *.
    replace (MIN_LEAD_TIME_MINUTES cfg >? 0) with true
      by (symmetry; apply Z.gtb_lt; lia).
    set (free := filter (fun s => negb (slot_taken conn (isoformat d) s))
                   slots).
    assert (Hfree : Forall well_formed_label free).
    { apply Forall_forall. intros s Hs. apply filter_In in Hs as [Hs _].
      rewrite Forall_forall in Hwf. auto. }
    destruct (filter_lead_time_labels cfg clock d t0 t1 d_valid lead_pos
                clock_valid clock_bounds no_overflow free Hfree 0%nat)
      as (out & Hout & Hsound & Hcomplete).
    exists out. split; [exact Hout|]. split; [exact Hsound|].
    intros h m Hh Hm Hin Hnt Hlate. apply Hcomplete; try assumption.
    apply filter_In. split; [assumption|]. rewrite Hnt. reflexivity.
Qed.

End FreeSlots.

(** * Text order *)

Lemma ascii_compare_lt_trans (a b c : ascii) :
  Ascii.compare a b = Lt -> Ascii.compare b c = Lt -> Ascii.compare a c = Lt.
Proof.
  unfold Ascii.compare. rewrite !N.compare_lt_iff. apply N.lt_trans.
Qed.

Lemma string_compare_lt_trans (s1 : string) :
  forall s2 s3,
    String.compare s1 s2 = Lt -> String.compare s2 s3 = Lt ->
    String.compare s1 s3 = Lt.
Proof.
  induction s1 as [|a s1 IH]; intros [|b s2] [|c s3]; simpl;
    try congruence.
  destruct (Ascii.compare a b) eqn:Eab; try discriminate;
    destruct (Ascii.compare b c) eqn:Ebc; try discriminate; intros H12 H23.
  - apply Ascii.compare_eq_iff in Eab, Ebc. subst.
    assert (E : Ascii.compare c c = Eq) by apply N.compare_refl.
    rewrite E. eauto.
  - apply Ascii.compare_eq_iff in Eab. subst. rewrite Ebc. reflexivity.
  - apply Ascii.compare_eq_iff in Ebc. subst. rewrite Eab. reflexivity.
  - rewrite (ascii_compare_lt_trans _ _ _ Eab Ebc). reflexivity.
Qed.

Lemma string_compare_refl (s : string) : String.compare s s = Eq.
Proof.
  induction s as [|a s IH]; simpl; [reflexivity|].
  assert (E : Ascii.compare a a = Eq) by apply N.compare_refl.
  rewrite E. exact IH.
Qed.

Lemma string_compare_gt_lt (s1 s2 : string) :
  String.compare s1 s2 = Gt <-> String.compare s2 s1 = Lt.
Proof.
  rewrite (String.compare_antisym s2 s1).
  destruct (String.compare s1 s2); simpl; split; congruence.
Qed.

(** * The ORDER BY clause *)

Lemma row_before_listed (r1 r2 : Row) :
  row_before r1 r2 = true <-> listed_before r1 r2.
Proof.
  unfold row_before, listed_before, String.ltb.
  destruct (String.compare (booking_date (cols r2)) (booking_date (cols r1)))
    eqn:Ed.
  - apply String.compare_eq_iff in Ed.
    destruct (String.compare (booking_time (cols r2))
                (booking_time (cols r1))) eqn:Et.
    + apply String.compare_eq_iff in Et. rewrite Z.leb_le. split.
      * intros H. right. split; [congruence|]. right. split; [congruence|lia].
      * intros [H | (_ & [H | (_ & H)])]; try discriminate. exact H.
    + split; [|reflexivity]. intros _. right. split; [congruence|].
      left. reflexivity.
    + split; [discriminate|].
      intros [H | (_ & [H | (Ht & _)])]; try discriminate.
      rewrite Ht, string_compare_refl in Et. discriminate.
  - split; [|reflexivity]. intros _. left. reflexivity.
  - split; [discriminate|].
    intros [H | (Hd & _)]; [discriminate|].
    rewrite Hd, string_compare_refl in Ed. discriminate.
Qed.

Lemma row_before_total (r1 r2 : Row) :
  row_before r1 r2 = false -> row_before r2 r1 = true.
Proof.
  unfold row_before.
  rewrite (String.compare_antisym (booking_date (cols r1))).
  rewrite (String.compare_antisym (booking_time (cols r1))).
  destruct (String.compare (booking_date (cols r2)) (booking_date (cols r1)));
    simpl; try congruence.
  destruct (String.compare (booking_time (cols r2)) (booking_time (cols r1)));
    simpl; try congruence.
  rewrite Z.leb_gt, Z.leb_le. lia.
Qed.

Lemma row_before_trans (r1 r2 r3 : Row) :
  row_before r1 r2 = true -> row_before r2 r3 = true ->
  row_before r1 r3 = true.
Proof.
  unfold row_before.
  destruct (String.compare (booking_date (cols r2)) (booking_date (cols r1)))
    eqn:E21; try discriminate;
  destruct (String.compare (booking_date (cols r3)) (booking_date (cols r2)))
    eqn:E32; try discriminate.
  - apply String.compare_eq_iff in E21, E32. rewrite E32, E21.
    rewrite string_compare_refl.
    destruct (String.compare (booking_time (cols r2))
                (booking_time (cols r1))) eqn:T21; try discriminate;
    destruct (String.compare (booking_time (cols r3))
                (booking_time (cols r2))) eqn:T32; try discriminate.
    + apply String.compare_eq_iff in T21, T32. rewrite T32, T21.
      rewrite string_compare_refl, !Z.leb_le. lia.
    + apply String.compare_eq_iff in T21. rewrite <- T21, T32. reflexivity.
    + apply String.compare_eq_iff in T32. rewrite T32, T21. reflexivity.
    + rewrite (string_compare_lt_trans _ _ _ T32 T21). reflexivity.
  - apply String.compare_eq_iff in E21. rewrite <- E21, E32. reflexivity.
  - apply String.compare_eq_iff in E32. rewrite E32, E21. reflexivity.
  - rewrite (string_compare_lt_trans _ _ _ E32 E21). reflexivity.
Qed.

Lemma insert_row_perm (r : Row) (l : list Row) :
  Permutation (r :: l) (insert_row r l).
Proof.
  induction l as [|x l IH]; simpl; [reflexivity|].
  destruct (row_before r x); [reflexivity|].
  rewrite perm_swap. constructor. exact IH.
Qed.

Lemma order_rows_perm (l : list Row) : Permutation l (order_rows l).
Proof.
  induction l as [|r l IH]; simpl; [constructor|].
  rewrite <- insert_row_perm. constructor. exact IH.
Qed.

Lemma insert_row_sorted (r : Row) (l : list Row) :
  StronglySorted (fun a b => row_before a b = true) l ->
  StronglySorted (fun a b => row_before a b = true) (insert_row r l).
Proof.
  induction 1 as [|x l Hl IH Hx]; simpl.
  - repeat constructor.
  - destruct (row_before r x) eqn:E.
    + constructor; [constructor; assumption|].
      constructor; [exact E|].
      rewrite Forall_forall in *. intros y Hy.
      eapply row_before_trans; eauto.
    + constructor; [exact IH|].
      rewrite Forall_forall in *. intros y Hy.
      apply (Permutation_in _ (Permutation_sym (insert_row_perm r l))) in Hy.
      destruct Hy as [<- | Hy]; [apply row_before_total; exact E | auto].
Qed.

Lemma order_rows_sorted (l : list Row) :
  StronglySorted (fun a b => row_before a b = true) (order_rows l).
Proof.
  induction l as [|r l IH]; simpl; [constructor|].
  apply insert_row_sorted, IH.
Qed.

Lemma fetch_bookings_In (conn : Store) (r : Row) :
  In r (fetch_bookings conn) <-> In r (bookings conn).
Proof.
  unfold fetch_bookings. split; apply Permutation_in;
    [symmetry|]; apply order_rows_perm.
Qed.

(** * Keys *)

Lemma max_id_bound (rows : list Row) (r : Row) :
  In r rows -> id r <= max_id rows.
Proof.
  induction rows as [|x rows IH]; simpl; [tauto|].
  intros [-> | H]; [lia | specialize (IH H); lia].
Qed.

Lemma next_id_fresh (conn : Store) (r : Row) :
  In r (bookings conn) -> id r < next_id conn.
Proof.
  intros H. apply max_id_bound in H. unfold next_id. lia.
Qed.


(** * Facts about the filter, the store and the admin view *)

Lemma generate_slots_not_work_day (cfg : Settings) (d : date) :
  ~ In (weekday d) (WORK_DAYS cfg) -> generate_slots cfg d = Ok [].
Proof.
  intros H. unfold generate_slots.
  destruct (mem_Z (weekday d) (WORK_DAYS cfg)) eqn:E; [|reflexivity].
  apply mem_Z_In in E. contradiction.
Qed.

Lemma free_slots_settings_returns (conn : Store) (clock : nat -> datetime)
    (d : date) :
  valid_date d ->
  (forall k, valid_datetime (clock k) /\
             datetime_us (clock k) + 60 * US_PER_MINUTE < LIMIT_US) ->
  exists offered, free_slots settings conn clock d = Ok offered.
Proof.
  intros Hd Hclock.
  destruct (mem_Z (weekday d) (WORK_DAYS settings)) eqn:Hw.
  - apply mem_Z_In in Hw.
    destruct (free_slots_lead_time settings conn clock d US_PER_DAY
                (LIMIT_US - 60 * US_PER_MINUTE - 1) _ Hd
                ltac:(vm_compute; intuition discriminate)
                (generate_slots_settings d Hd Hw) ltac:(reflexivity))
      as (offered & H & _).
    + intros k. apply Hclock.
    + intros k. destruct (Hclock k) as [Hv Hb].
      pose proof (datetime_us_range _ Hv). lia.
    + change (MIN_LEAD_TIME_MINUTES settings) with 60. lia.
    + exists offered. exact H.
  - exists []. unfold free_slots.
    rewrite generate_slots_not_work_day; [reflexivity|].
    intros Hin. apply mem_Z_In in Hin. congruence.
Qed.

Lemma holds_slot_true (d t : string) (r : Row) :
  holds_slot d t r = true <->
  booking_date (cols r) = d /\ booking_time (cols r) = t /\
  status (cols r) <> "cancelled".
Proof.
  unfold holds_slot.
  rewrite !andb_true_iff, negb_true_iff, !String.eqb_eq, String.eqb_neq.
  tauto.
Qed.

Lemma slot_taken_false (conn : Store) (d t : string) :
  slot_taken conn d t = false <->
  forall r, In r (bookings conn) -> holds_slot d t r = false.
Proof.
  unfold slot_taken. split.
  - intros H r Hr. destruct (holds_slot d t r) eqn:E; [|reflexivity].
    assert (Hin : In r (filter (holds_slot d t) (bookings conn)))
      by (apply filter_In; auto).
    destruct (filter (holds_slot d t) (bookings conn)); [destruct Hin|].
    cbn [List.length] in H. rewrite Z.gtb_ltb in H. apply Z.ltb_ge in H. lia.
  - intros H.
    replace (filter (holds_slot d t) (bookings conn)) with (@nil Row);
      [reflexivity|].
    symmetry. induction (bookings conn) as [|x l IH]; simpl; [reflexivity|].
    rewrite (H x) by (left; reflexivity).
    apply IH. intros r Hr. apply H. right. exact Hr.
Qed.

Lemma set_status_same (b : Booking) (s : string) :
  same_except_status b (set_status b s) /\ status (set_status b s) = s.
Proof. unfold same_except_status. simpl. repeat split. Qed.

Lemma update_status_rows (conn : Store) (k : Z) (s : string) (r' : Row) :
  In r' (bookings (update_status conn k s)) <->
  exists r, In r (bookings conn) /\
    r' = (if id r =? k then mkRow (id r) (set_status (cols r) s) else r).
Proof.
  simpl. rewrite in_map_iff. split; intros (r & H1 & H2); exists r.
  - split; [exact H2 | symmetry; exact H1].
  - split; [symmetry; exact H2 | exact H1].
Qed.

Lemma allowed_status_dec (s : string) :
  {allowed_status s} + {~ allowed_status s}.
Proof. apply in_dec, string_dec. Qed.

Lemma run_op_allowed (conn : Store) (o : op) :
  Forall (fun r => allowed_status (status (cols r))) (bookings conn) ->
  allowed_status (op_status o) ->
  Forall (fun r => allowed_status (status (cols r))) (bookings (run_op conn o)).
Proof.
  intros Hinv Ho. destruct o as [b | k s]; simpl in *.
  - apply Forall_app. split; [assumption|].
    constructor; [exact Ho | constructor].
  - rewrite Forall_forall in *. intros r' Hr'.
    apply in_map_iff in Hr' as (r & <- & Hr).
    destruct (id r =? k); [exact Ho | auto].
Qed.

Lemma int64_wrap_fits (z : Z) : fits_int64 z -> int64_wrap z = z.
Proof.
  unfold fits_int64, int64_wrap. intros Hz.
  rewrite Z.mod_small by lia. lia.
Qed.

Lemma int64_add_add (a b c : Z) :
  int64_add (int64_add a b) c = int64_wrap (a + b + c).
Proof.
  unfold int64_add, int64_wrap. f_equal.
  replace ((a + b + 9223372036854775808) mod 18446744073709551616
           - 9223372036854775808 + c + 9223372036854775808)
    with ((a + b + 9223372036854775808) mod 18446744073709551616 + c)
    by lia.
  rewrite Z.add_mod_idemp_l by lia. f_equal. lia.
Qed.

(** The sum of the three prices, when it fits 64 bits, is what the
    frame computes. *)
Lemma int64_total (a b c : Z) :
  fits_int64 (a + b + c) -> int64_add (int64_add a b) c = a + b + c.
Proof.
  intros H. rewrite int64_add_add. apply int64_wrap_fits, H.
Qed.

Lemma combine_all_in_range (date_from date_to : Z) (df : list Row) :
  forall ts,
    List.length ts = List.length df ->
    Forall (fun t => in_date_range date_from date_to t = true) ts ->
    map fst (filter (fun rt => in_date_range date_from date_to (snd rt))
                    (List.combine df ts)) = df.
Proof.
  induction df as [|r df IH]; intros ts Hlen Hall; [reflexivity|].
  destruct ts as [|t ts]; [discriminate|].
  inversion Hall as [|? ? Ht Hts]; subst. simpl. rewrite Ht. simpl.
  f_equal. apply IH; [simpl in Hlen; lia | exact Hts].
Qed.

Lemma add_total_rows (df : list Row) : map row (add_total df) = df.
Proof. unfold add_total. rewrite map_map. simpl. apply map_id. Qed.

Lemma add_total_total (df : list Row) (v : ViewRow) :
  In v (add_total df) ->
  In (row v) df /\
  total v = int64_wrap (service_price (cols (row v))
                        + addons_price (cols (row v))
                        + travel_fee (cols (row v))).
Proof.
  unfold add_total. intros Hv. apply in_map_iff in Hv as (r & <- & Hr).
  simpl. split; [exact Hr | apply int64_add_add].
Qed.

Lemma df_view_rows (to_datetime : list string -> option (list (option Z)))
    (status_filter : list string) (date_from date_to : Z) (df : list Row)
    (view : list ViewRow) :
  df_view to_datetime status_filter date_from date_to df = Ok view ->
  forall v, In v view ->
    In (row v) df /\
    total v = int64_wrap (service_price (cols (row v))
                          + addons_price (cols (row v))
                          + travel_fee (cols (row v))).
Proof.
  unfold df_view. cbv zeta.
  set (df1 := status_mask status_filter df).
  assert (Hsub : forall r, In r df1 -> In r df).
  { unfold df1, status_mask. destruct status_filter; [auto|].
    intros r Hr. apply filter_In in Hr. tauto. }
  destruct (to_datetime _) as [ts|]; [|discriminate].
  intros H v Hv. inversion H; subst; clear H.
  apply add_total_total in Hv as [Hr Ht]. split; [|exact Ht].
  apply in_map_iff in Hr as ([r' t] & E & Hr). simpl in E. subst r'.
  apply filter_In in Hr as [Hr _]. apply in_combine_l in Hr. auto.
Qed.

(** * The specified properties *)

(** ** The slot generator *)

(** C6.  On a date whose weekday is not among the work days,
    [generate_slots] returns the empty list. *)
Theorem generate_slots_off_day (cfg : Settings) (d : date) :
  ~ In (weekday d) (WORK_DAYS cfg) -> generate_slots cfg d = Ok [].
Proof. apply generate_slots_not_work_day. Qed.

(** 7 January 2024 is a Sunday. *)
Lemma generate_slots_off_day_witness :
  weekday (mkdate 2024 1 7) = 6 /\
  generate_slots settings (mkdate 2024 1 7) = Ok [].
Proof.
  split; [reflexivity|].
  apply (generate_slots_off_day settings (mkdate 2024 1 7)).
  vm_compute. intuition discriminate.
Defined.

(** C7.  With the compiled settings (09:00 to 18:00, 60 minutes),
    [generate_slots] returns the nine labels 09:00 to 17:00 on every
    work day.  In general, with a positive slot length, it returns the
    labels of the instants [start + i * length] for [i < n], where [n]
    counts the slots that end at or before the end of the day: slot
    [i < n] ends no later than the day does, and a slot number [n] would
    end after it. *)
Theorem generate_slots_work_day :
  (forall d,
     valid_date d -> In (weekday d) (WORK_DAYS settings) ->
     generate_slots settings d
     = Ok ["09:00"; "10:00"; "11:00"; "12:00"; "13:00"; "14:00"; "15:00";
           "16:00"; "17:00"]) /\
  (forall cfg d,
     let S := time_us (DAY_START cfg) in
     let E := time_us (DAY_END cfg) in
     let step := SLOT_MINUTES cfg * US_PER_MINUTE in
     let n := Z.to_nat ((E - S) / step) in
     valid_date d ->
     valid_time (DAY_START cfg) -> valid_time (DAY_END cfg) ->
     In (weekday d) (WORK_DAYS cfg) ->
     0 < SLOT_MINUTES cfg ->
     toordinal d * US_PER_DAY + Z.max S E + step < LIMIT_US ->
     generate_slots cfg d = Ok (slot_labels S step n) /\
     (forall i, (i < n)%nat -> S + (Z.of_nat i + 1) * step <= E) /\
     E < S + (Z.of_nat n + 1) * step).
Proof.
  split; [exact generate_slots_settings|].
  intros cfg d S E step n Hd Hs He Hw Hk Hov.
  split; [apply generate_slots_general; assumption|].
  apply steps_fit. unfold step, US_PER_MINUTE. lia.
Qed.

(** Monday 8 January 2024; and a day that ends at 17:30, where the slot
    that would start at 17:00 is dropped. *)
Lemma generate_slots_work_day_witness :
  generate_slots settings (mkdate 2024 1 8)
  = Ok ["09:00"; "10:00"; "11:00"; "12:00"; "13:00"; "14:00"; "15:00";
        "16:00"; "17:00"] /\
  generate_slots
    (mkSettings [0; 1; 2; 3; 4; 5] (mktime 9 0 0 0) (mktime 17 30 0 0) 60 60)
    (mkdate 2024 1 8)
  = Ok ["09:00"; "10:00"; "11:00"; "12:00"; "13:00"; "14:00"; "15:00";
        "16:00"].
Proof.
  assert (Hd : valid_date (mkdate 2024 1 8))
    by (vm_compute; intuition discriminate).
  split.
  - apply (proj1 generate_slots_work_day (mkdate 2024 1 8) Hd).
    vm_compute. tauto.
  - apply (proj2 generate_slots_work_day
             (mkSettings [0; 1; 2; 3; 4; 5] (mktime 9 0 0 0)
                (mktime 17 30 0 0) 60 60)
             (mkdate 2024 1 8) Hd).
    + vm_compute. intuition discriminate.
    + vm_compute. intuition discriminate.
    + vm_compute. tauto.
    + reflexivity.
    + vm_compute. reflexivity.
Defined.

(** ** The availability filter *)

(** C3.  No slot returned by the availability filter is taken: for
    every slot [s] of the list, [slot_taken] answers false for the date
    and [s].  With the compiled settings the filter does return a list,
    for every date and every clock that stays an hour short of the end
    of the calendar. *)
Theorem free_slots_excludes_taken (conn : Store) (clock : nat -> datetime)
    (d : date) :
  (forall cfg offered,
     free_slots cfg conn clock d = Ok offered ->
     forall s, In s offered -> slot_taken conn (isoformat d) s = false) /\
  (valid_date d ->
   (forall k, valid_datetime (clock k) /\
              datetime_us (clock k) + 60 * US_PER_MINUTE < LIMIT_US) ->
   exists offered, free_slots settings conn clock d = Ok offered).
Proof.
  split.
  - intros cfg offered H s Hs.
    apply (free_slots_sound cfg conn clock d offered H s Hs).
  - apply free_slots_settings_returns.
Qed.

(** Monday 8 January 2024 at 08:00, with 10:00 booked. *)
Lemma free_slots_excludes_taken_witness :
  free_slots settings
    (insert_booking empty_store (sample_booking "2024-01-08" "10:00" "new"))
    (fun _ => combine (mkdate 2024 1 8) (mktime 8 0 0 0)) (mkdate 2024 1 8)
  = Ok ["09:00"; "11:00"; "12:00"; "13:00"; "14:00"; "15:00"; "16:00";
        "17:00"] /\
  slot_taken
    (insert_booking empty_store (sample_booking "2024-01-08" "10:00" "new"))
    (isoformat (mkdate 2024 1 8)) "11:00" = false.
Proof.
  assert (H : free_slots settings
    (insert_booking empty_store (sample_booking "2024-01-08" "10:00" "new"))
    (fun _ => combine (mkdate 2024 1 8) (mktime 8 0 0 0)) (mkdate 2024 1 8)
  = Ok ["09:00"; "11:00"; "12:00"; "13:00"; "14:00"; "15:00"; "16:00";
        "17:00"]) by (vm_compute; reflexivity).
  split; [exact H|].
  apply (proj1 (free_slots_excludes_taken _ _ _) settings _ H).
  simpl. tauto.
Defined.

Lemma lead_time_example (d : date) :
  valid_date d ->
  lead_time_ok settings (combine d (mktime 14 30 0 0)) d "15:00" = Ok false /\
  lead_time_ok settings (combine d (mktime 14 30 0 0)) d "16:00" = Ok true.
Proof.
  intros Hd. pose proof (toordinal_range d Hd) as Ho.
  assert (Hnow : valid_datetime (combine d (mktime 14 30 0 0))).
  { apply combine_valid; [exact Hd|]. vm_compute. intuition discriminate. }
  assert (Hus : datetime_us (combine d (mktime 14 30 0 0))
                = toordinal d * US_PER_DAY + 52200000000) by reflexivity.
  assert (Hov : US_PER_DAY
                <= datetime_us (combine d (mktime 14 30 0 0))
                   + MIN_LEAD_TIME_MINUTES settings * US_PER_MINUTE
                < LIMIT_US).
  { rewrite Hus. change (MIN_LEAD_TIME_MINUTES settings * US_PER_MINUTE)
      with 3600000000.
    unfold LIMIT_US, MAXORDINAL, US_PER_DAY in *. lia. }
  split.
  - change "15:00" with (label_hm 15 0).
    rewrite lead_time_ok_label; try assumption; try lia.
    f_equal. apply Z.leb_gt. rewrite Hus.
    change (slot_start_us d 15 0) with (toordinal d * US_PER_DAY + 54000000000).
    change (MIN_LEAD_TIME_MINUTES settings * US_PER_MINUTE) with 3600000000.
    lia.
  - change "16:00" with (label_hm 16 0).
    rewrite lead_time_ok_label; try assumption; try lia.
    f_equal. apply Z.leb_le. rewrite Hus.
    change (slot_start_us d 16 0) with (toordinal d * US_PER_DAY + 57600000000).
    change (MIN_LEAD_TIME_MINUTES settings * US_PER_MINUTE) with 3600000000.
    lia.
Qed.

Lemma free_slots_example (conn : Store) (d : date) :
  valid_date d -> In (weekday d) (WORK_DAYS settings) ->
  exists offered,
    free_slots settings conn (fun _ => combine d (mktime 14 30 0 0)) d
    = Ok offered /\
    ~ In "15:00" offered /\
    (slot_taken conn (isoformat d) "16:00" = false -> In "16:00" offered).
Proof.
  intros Hd Hw. pose proof (toordinal_range d Hd) as Ho.
  set (now := combine d (mktime 14 30 0 0)).
  assert (Hnow : valid_datetime now).
  { apply combine_valid; [exact Hd|]. vm_compute. intuition discriminate. }
  assert (Hus : datetime_us now = toordinal d * US_PER_DAY + 52200000000)
    by reflexivity.
  destruct (free_slots_lead_time settings conn (fun _ => now) d
              (datetime_us now) (datetime_us now) _ Hd
              ltac:(vm_compute; intuition discriminate)
              (generate_slots_settings d Hd Hw) ltac:(reflexivity))
    as (offered & H & Hsound & Hcomplete).
  - intros _. exact Hnow.
  - intros _. lia.
  - rewrite Hus. change (MIN_LEAD_TIME_MINUTES settings * US_PER_MINUTE)
      with 3600000000.
    unfold LIMIT_US, MAXORDINAL, US_PER_DAY in *. lia.
  - exists offered. split; [exact H|]. split.
    + intros Hin. specialize (Hsound 15 0 ltac:(lia) ltac:(lia) Hin).
      rewrite Hus in Hsound.
      change (slot_start_us d 15 0)
        with (toordinal d * US_PER_DAY + 54000000000) in Hsound.
      change (MIN_LEAD_TIME_MINUTES settings * US_PER_MINUTE)
        with 3600000000 in Hsound.
      lia.
    + intros Hfree. apply (Hcomplete 16 0); try lia.
      * simpl. tauto.
      * exact Hfree.
      * rewrite Hus.
        change (slot_start_us d 16 0)
          with (toordinal d * US_PER_DAY + 57600000000).
        change (MIN_LEAD_TIME_MINUTES settings * US_PER_MINUTE)
          with 3600000000.
        lia.
Qed.

(** C4.  For a well-formed label [h]:[m], [lead_time_ok] answers
    whether the slot starts at or after the clock reading plus the lead
    time.  Hence, when the lead-time filter is on and the clock stays
    between [t0] and [t1] while the list is filtered (a frozen clock has
    [t0 = t1 = now]), the availability filter returns a list, no slot of
    it starts before [t0] plus the lead time, and every generated, free
    slot that starts at or after [t1] plus the lead time is in it.  With
    the compiled 60 minutes and the clock at 14:30 of the chosen day,
    15:00 is left out and 16:00 is kept. *)
Theorem lead_time_respected :
  (forall cfg now d h m,
     valid_date d -> valid_datetime now ->
     0 <= h <= 23 -> 0 <= m <= 59 ->
     US_PER_DAY <= datetime_us now + MIN_LEAD_TIME_MINUTES cfg * US_PER_MINUTE
                < LIMIT_US ->
     lead_time_ok cfg now d (label_hm h m)
     = Ok (datetime_us now + MIN_LEAD_TIME_MINUTES cfg * US_PER_MINUTE
           <=? slot_start_us d h m)) /\
  (forall cfg conn clock d t0 t1 slots,
     valid_date d -> valid_time (DAY_START cfg) ->
     generate_slots cfg d = Ok slots ->
     0 < MIN_LEAD_TIME_MINUTES cfg ->
     (forall k, valid_datetime (clock k)) ->
     (forall k, t0 <= datetime_us (clock k) <= t1) ->
     t1 + MIN_LEAD_TIME_MINUTES cfg * US_PER_MINUTE < LIMIT_US ->
     exists offered,
       free_slots cfg conn clock d = Ok offered /\
       (forall h m, 0 <= h <= 23 -> 0 <= m <= 59 ->
          In (label_hm h m) offered ->
          t0 + MIN_LEAD_TIME_MINUTES cfg * US_PER_MINUTE
          <= slot_start_us d h m) /\
       (forall h m, 0 <= h <= 23 -> 0 <= m <= 59 ->
          In (label_hm h m) slots ->
          slot_taken conn (isoformat d) (label_hm h m) = false ->
          t1 + MIN_LEAD_TIME_MINUTES cfg * US_PER_MINUTE
          <= slot_start_us d h m ->
          In (label_hm h m) offered)) /\
  (forall d,
     valid_date d ->
     lead_time_ok settings (combine d (mktime 14 30 0 0)) d "15:00"
     = Ok false /\
     lead_time_ok settings (combine d (mktime 14 30 0 0)) d "16:00"
     = Ok true) /\
  (forall conn d,
     valid_date d -> In (weekday d) (WORK_DAYS settings) ->
     exists offered,
       free_slots settings conn (fun _ => combine d (mktime 14 30 0 0)) d
       = Ok offered /\
       ~ In "15:00" offered /\
       (slot_taken conn (isoformat d) "16:00" = false ->
        In "16:00" offered)).
Proof.
  split; [exact lead_time_ok_label|].
  split; [|split; [exact lead_time_example | exact free_slots_example]].
  intros cfg conn clock d t0 t1 slots Hd Hs Hgen Hlead Hv Hb Hov.
  exact (free_slots_lead_time cfg conn clock d t0 t1 slots Hd Hs Hgen Hlead
           Hv Hb Hov).
Qed.

(** Monday 8 January 2024, the clock at 14:30, nothing booked. *)
Lemma lead_time_respected_witness :
  lead_time_ok settings (combine (mkdate 2024 1 8) (mktime 14 30 0 0))
    (mkdate 2024 1 8) "15:00" = Ok false /\
  lead_time_ok settings (combine (mkdate 2024 1 8) (mktime 14 30 0 0))
    (mkdate 2024 1 8) "16:00" = Ok true /\
  exists offered,
    free_slots settings empty_store
      (fun _ => combine (mkdate 2024 1 8) (mktime 14 30 0 0))
      (mkdate 2024 1 8) = Ok offered /\
    ~ In "15:00" offered /\ In "16:00" offered.
Proof.
  assert (Hd : valid_date (mkdate 2024 1 8))
    by (vm_compute; intuition discriminate).
  assert (Hw : In (weekday (mkdate 2024 1 8)) (WORK_DAYS settings))
    by (vm_compute; tauto).
  destruct (proj1 (proj2 (proj2 lead_time_respected)) (mkdate 2024 1 8) Hd)
    as [H15 H16].
  split; [exact H15|]. split; [exact H16|].
  destruct (proj2 (proj2 (proj2 lead_time_respected)) empty_store
              (mkdate 2024 1 8) Hd Hw) as (offered & H & Hout & Hin).
  exists offered. split; [exact H|]. split; [exact Hout|].
  apply Hin. reflexivity.
Defined.

(** C5.  When the [try] block of [lead_time_ok] does not produce a
    time, that is when the label does not parse, the check returns
    [True]: it raises nothing, whatever the date, the clock reading and
    the settings.  A label fails to parse exactly when it is not made of
    two fields around one colon that [int] reads as an hour and a
    minute. *)
Theorem lead_time_ok_tolerates_malformed (cfg : Settings) (now : datetime)
    (d : date) (s : string) :
  ((forall t, parse_label s <> Ok t) ->
   lead_time_ok cfg now d s = Ok true) /\
  (~ (exists hh mm h m,
        split_colon s = [hh; mm] /\ py_int hh = Ok h /\ py_int mm = Ok m /\
        0 <= h <= 23 /\ 0 <= m <= 59) ->
   lead_time_ok cfg now d s = Ok true).
Proof.
  split; [apply lead_time_ok_malformed|].
  intros Hbad. apply lead_time_ok_malformed. intros t Ht.
  apply parse_label_ok in Ht as (hh & mm & h & m & H1 & H2 & H3 & H4 & H5 & _).
  apply Hbad. exists hh, mm, h, m. tauto.
Qed.

(** Hour 25, no colon, three fields, and the empty string; the clock is
    at the last minute of the calendar. *)
Lemma lead_time_ok_tolerates_malformed_witness :
  Forall (fun s =>
            lead_time_ok settings
              (mkdatetime MAXORDINAL (mktime 23 59 0 0))
              (mkdate 2024 1 8) s = Ok true)
         ["25:00"; "noon"; "10:00:00"; ""].
Proof.
  repeat (apply Forall_cons;
          [ apply (proj1 (lead_time_ok_tolerates_malformed settings
                            (mkdatetime MAXORDINAL (mktime 23 59 0 0))
                            (mkdate 2024 1 8) _));
            intros t; vm_compute; discriminate | ]).
  apply Forall_nil.
Defined.

(** ** The booking store *)

(** C1, as amended.  [insert_booking] stores the booking as it is
    passed in, status included: after a create, the listing holds a
    record under the fresh key whose columns are exactly those of the
    booking, so its status is the status the caller supplied ("new" when
    the caller supplied "new", as the customer form does); the records
    that were there before are all still listed, under smaller keys. *)
Theorem create_persists_supplied_status (conn : Store) (b : Booking) :
  (exists r, In r (fetch_bookings (insert_booking conn b)) /\
             id r = next_id conn /\ cols r = b /\
             status (cols r) = status b) /\
  (forall r, In r (fetch_bookings (insert_booking conn b)) ->
             id r = next_id conn -> cols r = b /\ status (cols r) = status b) /\
  (forall r, In r (bookings conn) ->
             In r (fetch_bookings (insert_booking conn b)) /\
             id r < next_id conn).
Proof.
  split; [| split].
  - exists (mkRow (next_id conn) b). split; [|auto].
    apply fetch_bookings_In. simpl. apply in_or_app. right. left. reflexivity.
  - intros r Hr Hid. apply fetch_bookings_In in Hr. simpl in Hr.
    apply in_app_or in Hr as [Hr | [<- | []]].
    + apply next_id_fresh in Hr. lia.
    + auto.
  - intros r Hr. split; [| apply next_id_fresh; exact Hr].
    apply fetch_bookings_In. simpl. apply in_or_app. left. exact Hr.
Qed.

(** A fourth booking on the sample store gets key 4. *)
Lemma create_persists_supplied_status_witness :
  exists r,
    In r (fetch_bookings
            (insert_booking sample_store
               (sample_booking "2024-01-10" "09:00" "new"))) /\
    id r = 4 /\ status (cols r) = "new".
Proof.
  destruct (proj1 (create_persists_supplied_status sample_store
                     (sample_booking "2024-01-10" "09:00" "new")))
    as (r & Hin & Hid & _ & Hs).
  exists r. split; [exact Hin|]. split; [exact Hid | exact Hs].
Defined.

(** C1, as stated, fails: a booking created with status "cancelled" is
    listed with status "cancelled", not "new". *)
Lemma create_does_not_force_new :
  fetch_bookings
    (insert_booking empty_store
       (sample_booking "2024-01-08" "10:00" "cancelled"))
  = [mkRow 1 (sample_booking "2024-01-08" "10:00" "cancelled")] /\
  ~ (forall r,
       In r (fetch_bookings
               (insert_booking empty_store
                  (sample_booking "2024-01-08" "10:00" "cancelled"))) ->
       status (cols r) = "new").
Proof.
  split; [reflexivity|].
  intros H. specialize (H _ (or_introl eq_refl)). discriminate H.
Qed.

(** C2, as amended.  The store writes whatever status it is given, so
    the four-value invariant is exactly as strong as its callers: from
    a store whose statuses are all allowed, any sequence of creates and
    status updates whose status arguments are all allowed leaves every
    stored status allowed. *)
Theorem statuses_stay_allowed (conn : Store) (ops : list op) :
  Forall (fun r => allowed_status (status (cols r))) (bookings conn) ->
  Forall (fun o => allowed_status (op_status o)) ops ->
  Forall (fun r => allowed_status (status (cols r)))
         (bookings (run_ops conn ops)).
Proof.
  intros Hinv Hops. revert conn Hinv.
  induction Hops as [|o ops Ho Hops IH]; intros conn Hinv; simpl.
  - exact Hinv.
  - apply IH, run_op_allowed; assumption.
Qed.

Lemma statuses_stay_allowed_witness :
  Forall (fun r => allowed_status (status (cols r)))
    (bookings
       (run_ops empty_store
          [Create (sample_booking "2024-01-08" "10:00" "new");
           UpdateStatus 1 "done"; UpdateStatus 1 "new"])).
Proof.
  apply (statuses_stay_allowed empty_store).
  - constructor.
  - repeat constructor; simpl; unfold allowed_status, STATUSES; simpl; tauto.
Defined.

(** C2, as stated, fails: [update_status] writes a status outside the
    four values when it is handed one. *)
Lemma update_status_writes_any_status :
  exists r,
    In r (bookings
            (run_ops empty_store
               [Create (sample_booking "2024-01-08" "10:00" "new");
                UpdateStatus 1 "archived"])) /\
    status (cols r) = "archived" /\
    ~ allowed_status (status (cols r)).
Proof.
  eexists. split; [left; reflexivity|]. split; [reflexivity|].
  unfold allowed_status, STATUSES. simpl.
  intros [H | [H | [H | [H | []]]]]; discriminate H.
Qed.

(** C8.  After [update_status conn k "cancelled"], [slot_taken] answers
    false for a date and time that no record other than [k] holds with a
    status other than "cancelled"; this is so in particular for the date
    and time of record [k] itself. *)
Theorem cancel_frees_slot (conn : Store) (k : Z) (d t : string) :
  (forall r, In r (bookings conn) -> id r <> k ->
     booking_date (cols r) = d -> booking_time (cols r) = t ->
     status (cols r) = "cancelled") ->
  slot_taken (update_status conn k "cancelled") d t = false.
Proof.
  intros Hothers. apply slot_taken_false. intros r' Hr'.
  apply update_status_rows in Hr' as (r & Hr & ->).
  destruct (holds_slot d t _) eqn:E; [|reflexivity].
  apply holds_slot_true in E as (Hd & Ht & Hs).
  destruct (Z.eqb_spec (id r) k) as [Hk | Hk].
  - exfalso. apply Hs. reflexivity.
  - exfalso. apply Hs. auto.
Qed.

Lemma cancel_frees_slot_witness :
  slot_taken
    (insert_booking empty_store (sample_booking "2024-01-08" "10:00" "new"))
    "2024-01-08" "10:00" = true /\
  slot_taken
    (update_status
       (insert_booking empty_store (sample_booking "2024-01-08" "10:00" "new"))
       1 "cancelled")
    "2024-01-08" "10:00" = false.
Proof.
  split; [reflexivity|].
  apply (cancel_frees_slot
           (insert_booking empty_store
              (sample_booking "2024-01-08" "10:00" "new")) 1).
  intros r [<- | []] Hid. exfalso. apply Hid. reflexivity.
Defined.

Lemma StronglySorted_impl {A : Type} (R R' : A -> A -> Prop) (l : list A) :
  (forall x y, R x y -> R' x y) ->
  StronglySorted R l -> StronglySorted R' l.
Proof.
  intros HR. induction 1 as [|x l Hl IH Hx]; constructor; [exact IH|].
  eapply Forall_impl; [|exact Hx]. intros y. apply HR.
Qed.

(** C9, as amended.  [fetch_bookings] returns every stored record, once
    each, in the order of [listed_before]: later booking date first,
    then later booking time, then larger key.  The [total] column is
    not part of that listing and is never stored (a [Row] has no such
    column): the admin view adds it to the rows it shows, which are
    stored records, and it is the sum
    [service_price + addons_price + travel_fee] whenever that sum fits
    a signed 64-bit integer, as it does for the prices of the
    catalogue.  When no status filter is set and [pd.to_datetime] reads
    every booking date within the date range, the view is the whole
    listing so annotated. *)
Theorem listing_newest_first_with_total (conn : Store) :
  Permutation (bookings conn) (fetch_bookings conn) /\
  StronglySorted listed_before (fetch_bookings conn) /\
  (forall to_datetime status_filter date_from date_to view,
     df_view to_datetime status_filter date_from date_to
       (fetch_bookings conn) = Ok view ->
     forall v, In v view ->
       In (row v) (bookings conn) /\
       (fits_int64 (service_price (cols (row v))
                    + addons_price (cols (row v))
                    + travel_fee (cols (row v))) ->
        total v = service_price (cols (row v)) + addons_price (cols (row v))
                  + travel_fee (cols (row v)))) /\
  (forall to_datetime date_from date_to ts,
     to_datetime (map (fun r => booking_date (cols r)) (fetch_bookings conn))
     = Some ts ->
     List.length ts = List.length (fetch_bookings conn) ->
     Forall (fun t => in_date_range date_from date_to t = true) ts ->
     df_view to_datetime [] date_from date_to (fetch_bookings conn)
     = Ok (add_total (fetch_bookings conn))) /\
  map row (add_total (fetch_bookings conn)) = fetch_bookings conn /\
  Forall (fun v =>
            fits_int64 (service_price (cols (row v))
                        + addons_price (cols (row v))
                        + travel_fee (cols (row v))) ->
            total v = service_price (cols (row v))
                      + addons_price (cols (row v))
                      + travel_fee (cols (row v)))
         (add_total (fetch_bookings conn)).
Proof.
  split; [apply order_rows_perm|].
  split.
  { apply StronglySorted_impl with (R := fun a b => row_before a b = true).
    - intros x y. apply row_before_listed.
    - apply order_rows_sorted. }
  split.
  { intros to_datetime status_filter date_from date_to view H v Hv.
    destruct (df_view_rows _ _ _ _ _ _ H v Hv) as [Hin Ht].
    split; [apply fetch_bookings_In; exact Hin|].
    intros Hfit. rewrite Ht. apply int64_wrap_fits, Hfit. }
  split.
  { intros to_datetime date_from date_to ts Hts Hlen Hall.
    unfold df_view, status_mask. cbv zeta. rewrite Hts.
    rewrite (combine_all_in_range _ _ _ ts Hlen Hall). reflexivity. }
  split; [apply add_total_rows|].
  apply Forall_forall. intros v Hv Hfit.
  apply add_total_total in Hv as [_ Ht].
  rewrite Ht. apply int64_wrap_fits, Hfit.
Qed.

(** The sample store, listed; and the view under the default status
    filter, where the cancelled record 1 is not shown. *)
Lemma listing_newest_first_with_total_witness :
  map id (fetch_bookings sample_store) = [2; 3; 1] /\
  exists view,
    df_view sample_to_datetime ["new"; "confirmed"] 738880 738900
      (fetch_bookings sample_store) = Ok view /\
    map (fun v => id (row v)) view = [2; 3] /\
    Forall (fun v => total v = 154) view.
Proof.
  split; [reflexivity|].
  eexists. split; [vm_compute; reflexivity|]. split; [reflexivity|].
  apply Forall_forall. intros v Hv.
  destruct (proj1 (proj2 (proj2 (listing_newest_first_with_total sample_store)))
              sample_to_datetime ["new"; "confirmed"] 738880 738900 _
              eq_refl v Hv) as [_ Ht].
  destruct Hv as [<- | [<- | []]]; apply Ht; vm_compute;
    intuition discriminate.
Defined.

(** C9, as stated, fails: two prices of 2^62 are stored as they are, and
    the view shows the total -2^63 where the sum is 2^63. *)
Lemma total_wraps_beyond_64_bits :
  exists view,
    df_view sample_to_datetime [] 738893 738893
      (fetch_bookings (insert_booking empty_store large_booking)) = Ok view /\
    map total view = [-9223372036854775808] /\
    ~ (forall v, In v view ->
         total v = service_price (cols (row v)) + addons_price (cols (row v))
                   + travel_fee (cols (row v))).
Proof.
  eexists. split; [vm_compute; reflexivity|]. split; [reflexivity|].
  intros H. specialize (H _ (or_introl eq_refl)). vm_compute in H.
  discriminate H.
Qed.

(** C10.  [update_status conn k s] leaves the key counter alone and
    changes the table row by row: each row keeps its key and every
    column but the status; a row whose key is not [k] is unchanged, and
    a row whose key is [k] gets status [s].  When no row has key [k] the
    store is returned as it was. *)
Theorem update_status_frame (conn : Store) (k : Z) (s : string) :
  sqlite_sequence (update_status conn k s) = sqlite_sequence conn /\
  Forall2 (fun r r' =>
             id r' = id r /\
             same_except_status (cols r) (cols r') /\
             (id r <> k -> r' = r) /\
             (id r = k -> status (cols r') = s))
          (bookings conn) (bookings (update_status conn k s)) /\
  ((forall r, In r (bookings conn) -> id r <> k) ->
   update_status conn k s = conn).
Proof.
  split; [reflexivity|]. split.
  - simpl. induction (bookings conn) as [|r l IH]; simpl; constructor;
      [|exact IH].
    destruct (Z.eqb_spec (id r) k) as [Hk | Hk]; simpl.
    + split; [reflexivity|]. split; [apply set_status_same|].
      split; [congruence | reflexivity].
    + split; [reflexivity|]. split; [unfold same_except_status; tauto|].
      split; [reflexivity | congruence].
  - intros Hnone. destruct conn as [rows seq]. unfold update_status.
    simpl in *. f_equal.
    induction rows as [|r l IH]; simpl; [reflexivity|].
    rewrite IH by (intros x Hx; apply Hnone; right; exact Hx).
    destruct (Z.eqb_spec (id r) k) as [Hk | Hk]; [|reflexivity].
    exfalso. apply (Hnone r); [left; reflexivity | exact Hk].
Qed.

Lemma update_status_frame_witness :
  update_status
    (insert_booking empty_store (sample_booking "2024-01-08" "10:00" "new"))
    7 "done"
  = insert_booking empty_store (sample_booking "2024-01-08" "10:00" "new").
Proof.
  apply (update_status_frame
           (insert_booking empty_store
              (sample_booking "2024-01-08" "10:00" "new")) 7 "done").
  intros r [<- | []]. vm_compute. discriminate.
Defined.

(** * Further properties of the code *)

(** * Phone numbers *)

Lemma remove_char_absent (c : ascii) (s : string) :
  ~ In c (list_ascii_of_string (remove_char c s)).
Proof.
  induction s as [|x s IH]; simpl; [tauto|].
  destruct (Ascii.eqb_spec x c) as [E | E]; [exact IH|].
  simpl. intros [H | H]; [exact (E H) | exact (IH H)].
Qed.

Lemma remove_char_subset (c x : ascii) (s : string) :
  In x (list_ascii_of_string (remove_char c s)) ->
  In x (list_ascii_of_string s).
Proof.
  induction s as [|y s IH]; simpl; [tauto|].
  destruct (Ascii.eqb y c); simpl; tauto.
Qed.

Lemma isspace_not_digit (c : ascii) : isspace c = true -> isdigit c = false.
Proof.
  destruct c as [[] [] [] [] [] [] [] []]; vm_compute; congruence.
Qed.

Lemma digits_of_remove_char (c : ascii) (s : string) :
  isdigit c = false -> digits_of (remove_char c s) = digits_of s.
Proof.
  intros Hc. induction s as [|x s IH]; simpl; [reflexivity|].
  destruct (Ascii.eqb_spec x c) as [-> | E].
  - rewrite Hc. exact IH.
  - simpl. rewrite IH. reflexivity.
Qed.

Lemma digits_of_lstrip (s : string) : digits_of (py_lstrip s) = digits_of s.
Proof.
  induction s as [|x s IH]; simpl; [reflexivity|].
  destruct (isspace x) eqn:E; [|reflexivity].
  rewrite (isspace_not_digit x E). exact IH.
Qed.

Lemma digits_of_rstrip (s : string) : digits_of (py_rstrip s) = digits_of s.
Proof.
  induction s as [|x s IH]; simpl; [reflexivity|].
  destruct (py_rstrip s) as [|y r] eqn:E.
  - simpl in IH. rewrite <- IH.
    destruct (isspace x) eqn:Ex; simpl.
    + rewrite (isspace_not_digit x Ex). reflexivity.
    + destruct (isdigit x); reflexivity.
  - cbn [digits_of] in *. rewrite IH. reflexivity.
Qed.

Lemma digits_of_normalize_phone (p : string) :
  digits_of (normalize_phone p) = digits_of p.
Proof.
  unfold normalize_phone, py_strip.
  rewrite !digits_of_remove_char by reflexivity.
  rewrite digits_of_rstrip, digits_of_lstrip. reflexivity.
Qed.

Lemma digits_of_length (s : string) :
  (String.length (digits_of s) <= String.length s)%nat.
Proof.
  induction s as [|x s IH]; simpl; [lia|].
  destruct (isdigit x); simpl; lia.
Qed.

Lemma is_valid_phone_length (p : string) :
  is_valid_phone p = true -> (9 <= String.length p)%nat.
Proof.
  unfold is_valid_phone. cbv zeta. intros H.
  apply andb_true_iff in H as [H _]. apply Z.leb_le in H.
  pose proof (digits_of_length p). lia.
Qed.

(** X1.  A normalised phone number contains no space and no hyphen. *)
Theorem normalize_phone_no_space_hyphen (p : string) (c : ascii) :
  In c (list_ascii_of_string (normalize_phone p)) ->
  c <> " "%char /\ c <> "-"%char.
Proof.
  unfold normalize_phone. intros H. split; intros ->.
  - apply remove_char_subset in H. exact (remove_char_absent _ _ H).
  - exact (remove_char_absent _ _ H).
Qed.

Lemma normalize_phone_no_space_hyphen_witness :
  normalize_phone " 04 1234-5678 " = "0412345678" /\
  "4"%char <> " "%char /\ "4"%char <> "-"%char.
Proof.
  split; [reflexivity|].
  apply (normalize_phone_no_space_hyphen " 04 1234-5678 " "4"%char).
  vm_compute. tauto.
Defined.

(** X2.  Normalising a phone number keeps its digits, so a number is
    valid after normalisation exactly when it was valid before; and a
    valid number has at least nine characters. *)
Theorem is_valid_phone_normalize (p : string) :
  digits_of (normalize_phone p) = digits_of p /\
  is_valid_phone (normalize_phone p) = is_valid_phone p /\
  (is_valid_phone p = true -> (9 <= String.length p)%nat).
Proof.
  split; [apply digits_of_normalize_phone|].
  split; [|apply is_valid_phone_length].
  unfold is_valid_phone. cbv zeta.
  rewrite digits_of_normalize_phone. reflexivity.
Qed.

Lemma is_valid_phone_normalize_witness :
  normalize_phone "04 1234-5678" = "0412345678" /\
  (9 <= String.length "04 1234-5678")%nat.
Proof.
  split; [reflexivity|].
  apply (proj2 (proj2 (is_valid_phone_normalize "04 1234-5678"))).
  reflexivity.
Defined.


(** * Keys of the table *)

Lemma max_id_app (l1 l2 : list Row) :
  max_id (l1 ++ l2) = Z.max (max_id l1) (max_id l2).
Proof.
  induction l1 as [|r l1 IH]; simpl.
  - assert (0 <= max_id l2); [|lia].
    induction l2 as [|x l2 IH2]; simpl; lia.
  - rewrite IH. lia.
Qed.

Lemma max_id_first_keys (n : nat) (rows : list Row) :
  map id rows = map Z.of_nat (seq 1 n) -> max_id rows = Z.of_nat n.
Proof.
  revert rows. induction n as [|n IH]; intros rows H.
  - destruct rows; [reflexivity | discriminate].
  - rewrite seq_S, map_app in H. simpl in H.
    destruct (exists_last (l := rows)) as (front & r & ->).
    { intros ->. symmetry in H. apply app_eq_nil in H as [_ H]. discriminate. }
    rewrite map_app in H. simpl in H.
    apply app_inj_tail in H as [Hfront Hr].
    specialize (IH front Hfront).
    rewrite max_id_app, IH. simpl. rewrite Hr. lia.
Qed.

Lemma map_id_update_status (conn : Store) (k : Z) (s : string) :
  map id (bookings (update_status conn k s)) = map id (bookings conn).
Proof.
  simpl. rewrite map_map. apply map_ext. intros r.
  destruct (id r =? k); reflexivity.
Qed.

Lemma run_ops_keys_from (ops : list op) :
  forall conn n,
    map id (bookings conn) = map Z.of_nat (seq 1 n) ->
    sqlite_sequence conn = Z.of_nat n ->
    map id (bookings (run_ops conn ops))
    = map Z.of_nat (seq 1 (n + count_creates ops)) /\
    sqlite_sequence (run_ops conn ops) = Z.of_nat (n + count_creates ops).
Proof.
  induction ops as [|o ops IH]; intros conn n Hids Hseq.
  - simpl. rewrite Nat.add_0_r. auto.
  - destruct o as [b | k s]; unfold run_ops in *; simpl fold_left.
    + change (count_creates (Create b :: ops)) with (S (count_creates ops)).
      rewrite <- Nat.add_succ_comm. apply IH.
      * cbn [run_op insert_booking bookings].
        rewrite map_app, seq_S, map_app, Hids. cbn [map id].
        unfold next_id. rewrite Hseq, (max_id_first_keys n _ Hids).
        do 2 f_equal. lia.
      * cbn [run_op insert_booking sqlite_sequence].
        unfold next_id. rewrite Hseq, (max_id_first_keys n _ Hids).
        lia.
    + change (count_creates (UpdateStatus k s :: ops))
        with (count_creates ops).
      apply IH; [rewrite map_id_update_status; exact Hids | exact Hseq].
Qed.

(** X3.  Starting from the empty table, after any run of creates and
    status updates the keys of the table are 1, 2, ..., n in the order of
    insertion, where n is the number of creates, and the key counter is
    n. *)
Theorem run_ops_keys (ops : list op) :
  map id (bookings (run_ops empty_store ops))
  = map Z.of_nat (seq 1 (count_creates ops)) /\
  sqlite_sequence (run_ops empty_store ops) = Z.of_nat (count_creates ops).
Proof. exact (run_ops_keys_from ops empty_store 0 eq_refl eq_refl). Qed.



(** * Status updates *)

(** X5.  Of two status updates of the same record the later one wins,
    and status updates of different records can be done in either
    order. *)
Theorem update_status_composes (conn : Store) (k k' : Z) (s s' : string) :
  update_status (update_status conn k s) k s' = update_status conn k s' /\
  (k <> k' ->
   update_status (update_status conn k s) k' s'
   = update_status (update_status conn k' s') k s).
Proof.
  split.
  - unfold update_status. simpl. f_equal. rewrite map_map.
    apply map_ext. intros r.
    destruct (Z.eqb_spec (id r) k) as [E | E]; simpl.
    + rewrite E, Z.eqb_refl. reflexivity.
    + destruct (Z.eqb_spec (id r) k); [contradiction | reflexivity].
  - intros Hk. unfold update_status. simpl. f_equal. rewrite !map_map.
    apply map_ext. intros r.
    destruct (Z.eqb_spec (id r) k) as [E | E];
      destruct (Z.eqb_spec (id r) k') as [E' | E']; simpl;
      try (exfalso; congruence);
      repeat match goal with
             | |- context [id r =? ?x] => destruct (Z.eqb_spec (id r) x)
             end; try contradiction; reflexivity.
Qed.

Lemma update_status_composes_witness :
  update_status (update_status sample_store 2 "done") 3 "confirmed"
  = update_status (update_status sample_store 3 "confirmed") 2 "done".
Proof.
  apply (proj2 (update_status_composes sample_store 2 3 "done" "confirmed")).
  discriminate.
Defined.


Lemma row_before_with_status (k : Z) (s : string) (a b : Row) :
  row_before (with_status_if k s a) (with_status_if k s b) = row_before a b.
Proof.
  unfold with_status_if, row_before.
  destruct (id a =? k); destruct (id b =? k); reflexivity.
Qed.

Lemma insert_row_with_status (k : Z) (s : string) (r : Row) (l : list Row) :
  insert_row (with_status_if k s r) (map (with_status_if k s) l)
  = map (with_status_if k s) (insert_row r l).
Proof.
  induction l as [|x l IH]; simpl; [reflexivity|].
  rewrite row_before_with_status.
  destruct (row_before r x); simpl; [reflexivity|].
  rewrite IH. reflexivity.
Qed.

(** X6.  A status update does not move any record in the listing: the
    listing of the updated table is the old listing with the status of
    record [k] replaced, record by record. *)
Theorem update_status_keeps_order (conn : Store) (k : Z) (s : string) :
  fetch_bookings (update_status conn k s)
  = map (fun r => if id r =? k then mkRow (id r) (set_status (cols r) s)
                  else r)
        (fetch_bookings conn) /\
  map id (fetch_bookings (update_status conn k s))
  = map id (fetch_bookings conn).
Proof.
  assert (H : fetch_bookings (update_status conn k s)
              = map (with_status_if k s) (fetch_bookings conn)).
  { unfold fetch_bookings. simpl.
    change (fun r => if id r =? k then mkRow (id r) (set_status (cols r) s)
                     else r) with (with_status_if k s).
    induction (bookings conn) as [|r l IH]; simpl; [reflexivity|].
    rewrite IH. apply insert_row_with_status. }
  split; [exact H|].
  rewrite H, map_map. apply map_ext. intros r.
  unfold with_status_if. destruct (id r =? k); reflexivity.
Qed.

(** * Slots and the table *)

Lemma slot_taken_exists (conn : Store) (d t : string) :
  slot_taken conn d t = existsb (holds_slot d t) (bookings conn).
Proof.
  unfold slot_taken.
  induction (bookings conn) as [|r l IH]; simpl; [reflexivity|].
  destruct (holds_slot d t r); simpl; [|exact IH].
  apply Z.gtb_lt. lia.
Qed.

(** X7.  After [insert_booking], [slot_taken] answers true for a date
    and time exactly when it did before or the new booking is for that
    date and time with a status other than "cancelled". *)
Theorem slot_taken_insert (conn : Store) (b : Booking) (d t : string) :
  slot_taken (insert_booking conn b) d t
  = slot_taken conn d t
    || (String.eqb (booking_date b) d && String.eqb (booking_time b) t
        && negb (String.eqb (status b) "cancelled")).
Proof.
  rewrite !slot_taken_exists. simpl. rewrite existsb_app. simpl.
  rewrite orb_false_r. reflexivity.
Qed.

(** X8.  Setting the status of a record to anything but "cancelled"
    makes [slot_taken] answer true for the date and time of that
    record. *)
Theorem reopen_takes_slot (conn : Store) (k : Z) (s : string) (r : Row) :
  In r (bookings conn) -> id r = k -> s <> "cancelled" ->
  slot_taken (update_status conn k s)
    (booking_date (cols r)) (booking_time (cols r)) = true.
Proof.
  intros Hr Hk Hs. rewrite slot_taken_exists. apply existsb_exists.
  exists (mkRow (id r) (set_status (cols r) s)). split.
  - apply update_status_rows. exists r. split; [exact Hr|].
    rewrite Hk, Z.eqb_refl. reflexivity.
  - apply holds_slot_true. simpl. auto.
Qed.

Lemma reopen_takes_slot_witness :
  slot_taken sample_store "2024-01-08" "10:00" = false /\
  slot_taken (update_status sample_store 1 "confirmed")
    "2024-01-08" "10:00" = true.
Proof.
  split; [reflexivity|].
  apply (reopen_takes_slot sample_store 1 "confirmed"
           (mkRow 1 (sample_booking "2024-01-08" "10:00" "cancelled"))).
  - vm_compute. tauto.
  - reflexivity.
  - discriminate.
Defined.

(** * Order of the offered slots *)


Lemma subseq_trans {A : Type} (l1 l2 l3 : list A) :
  subseq l1 l2 -> subseq l2 l3 -> subseq l1 l3.
Proof.
  intros H12 H23. revert l1 H12.
  induction H23 as [|x l2 l3 H IH|x l2 l3 H IH]; intros l1 H12.
  - exact H12.
  - apply subseq_skip. auto.
  - inversion H12; subst; [apply subseq_skip | apply subseq_keep]; auto.
Qed.

Lemma subseq_filter {A : Type} (p : A -> bool) (l : list A) :
  subseq (filter p l) l.
Proof.
  induction l as [|x l IH]; simpl; [constructor|].
  destruct (p x); [apply subseq_keep | apply subseq_skip]; exact IH.
Qed.

Lemma subseq_map {A B : Type} (g : A -> B) (l l' : list A) :
  subseq l l' -> subseq (map g l) (map g l').
Proof. induction 1; simpl; constructor; assumption. Qed.

Lemma subseq_In {A : Type} (l l' : list A) (x : A) :
  subseq l l' -> In x l -> In x l'.
Proof. induction 1; simpl; intuition. Qed.

Lemma subseq_NoDup {A : Type} (l l' : list A) :
  subseq l l' -> NoDup l' -> NoDup l.
Proof.
  induction 1 as [|x l l' H IH|x l l' H IH]; intros Hn.
  - constructor.
  - inversion Hn; auto.
  - inversion Hn; subst. constructor; [|auto].
    intros Hin. eauto using subseq_In.
Qed.

Lemma filter_lead_time_subseq (cfg : Settings) (clock : nat -> datetime)
    (d : date) (slots : list string) :
  forall call out,
    filter_lead_time cfg clock call d slots = Ok out -> subseq out slots.
Proof.
  induction slots as [|x rest IH]; intros call out H; simpl in H.
  - inversion H. constructor.
  - destruct (lead_time_ok cfg (clock call) d x) as [b| |]; simpl in H;
      try discriminate.
    destruct (filter_lead_time cfg clock (S call) d rest) as [out'| |] eqn:E;
      simpl in H; try discriminate.
    inversion H; subst; clear H.
    destruct b; [apply subseq_keep | apply subseq_skip]; eauto.
Qed.

(** X16.  The offered slots are generated slots, in the order in which
    they were generated. *)
Theorem free_slots_keeps_order (cfg : Settings) (conn : Store)
    (clock : nat -> datetime) (d : date) (offered : list string) :
  free_slots cfg conn clock d = Ok offered ->
  exists slots, generate_slots cfg d = Ok slots /\ subseq offered slots.
Proof.
  unfold free_slots. intros H.
  destruct (generate_slots cfg d) as [slots| |]; simpl in H; try discriminate.
  exists slots. split; [reflexivity|].
  destruct slots as [|x rest] eqn:Es.
  - inversion H. constructor.
  - rewrite <- Es in *.
    destruct (MIN_LEAD_TIME_MINUTES cfg >? 0).
    + eapply subseq_trans;
        [eapply filter_lead_time_subseq; exact H | apply subseq_filter].
    + inversion H; subst. apply subseq_filter.
Qed.

Lemma free_slots_keeps_order_witness :
  exists slots,
    generate_slots settings (mkdate 2024 1 8) = Ok slots /\
    subseq ["16:00"; "17:00"] slots.
Proof.
  apply (free_slots_keeps_order settings sample_store
           (fun _ => combine (mkdate 2024 1 8) (mktime 14 30 0 0))
           (mkdate 2024 1 8)).
  vm_compute. reflexivity.
Defined.

(** * The lead-time check *)

(** X20.  [lead_time_ok] either returns a boolean or raises
    OverflowError; it raises only for a label that parses, when the
    clock reading plus the lead time is outside the calendar. *)
Theorem lead_time_ok_raises_only_overflow (cfg : Settings) (now : datetime)
    (d : date) (s : string) :
  (exists b, lead_time_ok cfg now d s = Ok b) \/
  (lead_time_ok cfg now d s = Raise OverflowError /\
   (exists t, parse_label s = Ok t) /\
   ~ (US_PER_DAY
      <= datetime_us now + MIN_LEAD_TIME_MINUTES cfg * US_PER_MINUTE
      < LIMIT_US)).
Proof.
  unfold lead_time_ok.
  pose proof (parse_label_returns s) as Hret.
  destruct (parse_label s) as [t | e |]; simpl.
  - destruct (Z_le_dec US_PER_DAY
                (datetime_us now + MIN_LEAD_TIME_MINUTES cfg * US_PER_MINUTE))
      as [Hlo | Hlo];
    [destruct (Z_lt_dec
                 (datetime_us now + MIN_LEAD_TIME_MINUTES cfg * US_PER_MINUTE)
                 LIMIT_US) as [Hhi | Hhi]|].
    + destruct (add_minutes_ok now (MIN_LEAD_TIME_MINUTES cfg)
                  (conj Hlo Hhi)) as (r & -> & _).
      left. eexists. reflexivity.
    + right. rewrite add_minutes_overflow by (unfold LIMIT_US in Hhi; lia).
      split; [reflexivity|]. split; [eauto | lia].
    + right. rewrite add_minutes_overflow by lia.
      split; [reflexivity|]. split; [eauto | lia].
  - left. eexists. reflexivity.
  - congruence.
Qed.

(** X19.  With a lead time that is not negative, a slot that passes
    the lead-time check also passes it at any earlier clock reading, and
    so does any slot of the same day that starts no earlier. *)
Theorem lead_time_ok_monotone (cfg : Settings) (now now' : datetime)
    (d : date) (h m h' m' : Z) :
  valid_date d -> valid_datetime now -> valid_datetime now' ->
  0 <= h <= 23 -> 0 <= m <= 59 -> 0 <= h' <= 23 -> 0 <= m' <= 59 ->
  0 <= MIN_LEAD_TIME_MINUTES cfg ->
  datetime_us now' <= datetime_us now ->
  h * 60 + m <= h' * 60 + m' ->
  lead_time_ok cfg now d (label_hm h m) = Ok true ->
  lead_time_ok cfg now' d (label_hm h' m') = Ok true.
Proof.
  intros Hd Hnow Hnow' Hh Hm Hh' Hm' Hlead Hclock Hlater H.
  pose proof (datetime_us_range _ Hnow) as Hr.
  pose proof (datetime_us_range _ Hnow') as Hr'.
  assert (Hin : US_PER_DAY
                <= datetime_us now + MIN_LEAD_TIME_MINUTES cfg * US_PER_MINUTE
                < LIMIT_US).
  { destruct (Z_lt_dec
                (datetime_us now + MIN_LEAD_TIME_MINUTES cfg * US_PER_MINUTE)
                LIMIT_US) as [Hlt | Hge].
    - unfold US_PER_MINUTE in *. lia.
    - rewrite lead_time_ok_label_overflow in H; try assumption;
        [discriminate | lia]. }
  rewrite lead_time_ok_label in H by assumption.
  assert (Hle : datetime_us now + MIN_LEAD_TIME_MINUTES cfg * US_PER_MINUTE
                <= slot_start_us d h m) by (apply Z.leb_le; congruence).
  clear H. rewrite lead_time_ok_label; try assumption.
  - f_equal. apply Z.leb_le.
    unfold slot_start_us, datetime_us, combine, time_us in *.
    cbn [ordinal tod hour minute second microsecond] in *. lia.
  - unfold US_PER_MINUTE in *. lia.
Qed.

Lemma lead_time_ok_monotone_witness :
  lead_time_ok settings (combine (mkdate 2024 1 8) (mktime 14 0 0 0))
    (mkdate 2024 1 8) (label_hm 16 30) = Ok true.
Proof.
  apply (lead_time_ok_monotone settings
           (combine (mkdate 2024 1 8) (mktime 14 30 0 0))
           (combine (mkdate 2024 1 8) (mktime 14 0 0 0))
           (mkdate 2024 1 8) 16 0 16 30);
    try (vm_compute; intuition discriminate).
Defined.

(** * Labels and parsing *)

(** X21.  Every label that [generate_slots] returns parses back, as
    [lead_time_ok] parses it, to a time on the full minute whose
    [strftime("%H:%M")] is the label. *)
Theorem generated_labels_parse_back (cfg : Settings) (d : date)
    (slots : list string) :
  valid_date d -> valid_time (DAY_START cfg) ->
  generate_slots cfg d = Ok slots ->
  forall s, In s slots ->
    exists t, parse_label s = Ok t /\ valid_time t /\
              strftime_HM t = s /\ second t = 0 /\ microsecond t = 0.
Proof.
  intros Hd Hs Hgen s Hin.
  pose proof (generate_slots_well_formed cfg d slots Hd Hs Hgen) as Hwf.
  rewrite Forall_forall in Hwf.
  destruct (Hwf s Hin) as (h & m & Hh & Hm & ->).
  exists (mktime h m 0 0). split; [apply parse_label_label_hm; assumption|].
  split; [repeat split; simpl; lia|]. repeat split.
Qed.

Lemma generated_labels_parse_back_witness :
  exists t, parse_label "13:00" = Ok t /\ valid_time t /\
            strftime_HM t = "13:00" /\ second t = 0 /\ microsecond t = 0.
Proof.
  apply (generated_labels_parse_back settings (mkdate 2024 1 8)
           ["09:00"; "10:00"; "11:00"; "12:00"; "13:00"; "14:00"; "15:00";
            "16:00"; "17:00"]).
  - vm_compute. intuition discriminate.
  - vm_compute. intuition discriminate.
  - vm_compute. reflexivity.
  - simpl. tauto.
Defined.

(** * The admin view *)









(** * The listing and the order of storage *)

Lemma row_before_antisym (a b : Row) :
  row_before a b = true -> row_before b a = true -> id a = id b.
Proof.
  unfold row_before.
  rewrite (String.compare_antisym (booking_date (cols a))).
  rewrite (String.compare_antisym (booking_time (cols a))).
  destruct (String.compare (booking_date (cols b)) (booking_date (cols a)));
    simpl; try discriminate.
  destruct (String.compare (booking_time (cols b)) (booking_time (cols a)));
    simpl; try discriminate.
  rewrite !Z.leb_le. lia.
Qed.

Lemma NoDup_map_inj_in {A B : Type} (g : A -> B) (l : list A) (a b : A) :
  NoDup (map g l) -> In a l -> In b l -> g a = g b -> a = b.
Proof.
  induction l as [|x l IH]; simpl; [tauto|].
  intros Hn Ha Hb E. inversion Hn as [|? ? Hx Hl]; subst.
  destruct Ha as [-> | Ha]; destruct Hb as [-> | Hb]; auto.
  - exfalso. apply Hx. rewrite E. apply in_map. exact Hb.
  - exfalso. apply Hx. rewrite <- E. apply in_map. exact Ha.
Qed.

Lemma sorted_permutation_unique {A : Type} (R : A -> A -> Prop)
    (l1 : list A) :
  forall l2,
    StronglySorted R l1 -> StronglySorted R l2 -> Permutation l1 l2 ->
    (forall a b, In a l1 -> In b l1 -> R a b -> R b a -> a = b) ->
    l1 = l2.
Proof.
  induction l1 as [|a l1 IH]; intros l2 H1 H2 Hp Hanti.
  - apply Permutation_nil in Hp. congruence.
  - destruct l2 as [|b l2];
      [apply Permutation_sym, Permutation_nil in Hp; discriminate|].
    inversion H1 as [|? ? H1' Ha]; subst.
    inversion H2 as [|? ? H2' Hb]; subst.
    rewrite Forall_forall in Ha, Hb.
    assert (E : a = b).
    { assert (Hina : In a (b :: l2))
        by (eapply Permutation_in; [exact Hp | left; reflexivity]).
      assert (Hinb : In b (a :: l1))
        by (eapply Permutation_in;
            [apply Permutation_sym; exact Hp | left; reflexivity]).
      destruct Hina as [-> | Hina]; [reflexivity|].
      destruct Hinb as [-> | Hinb]; [reflexivity|].
      apply Hanti; [left; reflexivity | right; exact Hinb | auto | auto]. }
    subst b. f_equal. apply IH; try assumption.
    + eapply Permutation_cons_inv. exact Hp.
    + intros x y Hx Hy. apply Hanti; right; assumption.
Qed.

(** X22.  With distinct keys, the listing depends on the records of
    the table only, not on the order in which they are stored. *)
Theorem listing_independent_of_storage_order (rows rows' : list Row)
    (seq seq' : Z) :
  Permutation rows rows' ->
  NoDup (map id rows) ->
  fetch_bookings (mkStore rows seq) = fetch_bookings (mkStore rows' seq').
Proof.
  intros Hp Hn. unfold fetch_bookings. simpl.
  apply sorted_permutation_unique
    with (R := fun a b => row_before a b = true).
  - apply order_rows_sorted.
  - apply order_rows_sorted.
  - rewrite <- (order_rows_perm rows), <- (order_rows_perm rows'). exact Hp.
  - intros a b Ha Hb Hab Hba.
    apply (NoDup_map_inj_in id (order_rows rows)); try assumption.
    + eapply Permutation_NoDup; [|exact Hn].
      apply Permutation_map, order_rows_perm.
    + apply row_before_antisym; assumption.
Qed.

Lemma listing_independent_of_storage_order_witness :
  fetch_bookings sample_store
  = fetch_bookings (mkStore (rev (bookings sample_store)) 0).
Proof.
  apply (listing_independent_of_storage_order (bookings sample_store)
           (rev (bookings sample_store)) 3 0).
  - apply Permutation_rev.
  - vm_compute. repeat constructor; simpl; intuition discriminate.
Defined.

(** * Chronological order of the labels *)


Lemma label_of_minute_next_all :
  forallb (fun a =>
             match String.compare (label_of_minute a) (label_of_minute (a + 1))
             with Lt => true | _ => false end)
          (Zrange 1439) = true.
Proof. vm_compute. reflexivity. Qed.

Lemma label_of_minute_next (a : Z) :
  0 <= a < 1439 ->
  String.compare (label_of_minute a) (label_of_minute (a + 1)) = Lt.
Proof.
  intros Ha. pose proof label_of_minute_next_all as H.
  rewrite forallb_forall in H.
  specialize (H a (In_Zrange 1439 a ltac:(lia))).
  destruct (String.compare _ _); congruence.
Qed.

Lemma label_of_minute_lt (a : Z) (n : nat) :
  0 <= a -> a + Z.of_nat (S n) < 1440 ->
  String.compare (label_of_minute a) (label_of_minute (a + Z.of_nat (S n)))
  = Lt.
Proof.
  intros Ha. induction n as [|n IH]; intros Hb.
  - apply label_of_minute_next. lia.
  - apply string_compare_lt_trans with (s2 := label_of_minute (a + Z.of_nat (S n))).
    + apply IH. lia.
    + replace (a + Z.of_nat (S (S n))) with (a + Z.of_nat (S n) + 1) by lia.
      apply label_of_minute_next. lia.
Qed.

Lemma label_of_us_minute (u : Z) :
  0 <= u < US_PER_DAY -> label_of_us u = label_of_minute (u / US_PER_MINUTE).
Proof.
  intros Hu. unfold label_of_us, label_of_minute, label_hm, strftime_HM,
    time_of_us. cbn [hour minute].
  unfold US_PER_DAY, US_PER_MINUTE in *.
  replace (u / 1000000 / 3600) with (u / 60000000 / 60)
    by (Z.div_mod_to_equations; lia).
  replace (((u / 1000000) mod 3600) / 60) with ((u / 60000000) mod 60)
    by (Z.div_mod_to_equations; lia).
  reflexivity.
Qed.

Lemma StronglySorted_map_seq {A : Type} (R : A -> A -> Prop) (g : nat -> A)
    (n : nat) :
  forall start,
    (forall i j, (start <= i < j)%nat -> (j < start + n)%nat ->
                 R (g i) (g j)) ->
    StronglySorted R (map g (seq start n)).
Proof.
  induction n as [|n IH]; intros start H; simpl; constructor.
  - apply IH. intros i j Hij Hj. apply H; lia.
  - apply Forall_forall. intros x Hx.
    apply in_map_iff in Hx as (j & <- & Hj). apply in_seq in Hj.
    apply H; lia.
Qed.

Lemma StronglySorted_subseq {A : Type} (R : A -> A -> Prop) (l l' : list A) :
  subseq l l' -> StronglySorted R l' -> StronglySorted R l.
Proof.
  induction 1 as [|x l l' H IH|x l l' H IH]; intros Hs.
  - constructor.
  - inversion Hs; auto.
  - inversion Hs as [|? ? Hs' Hx]; subst. constructor; [auto|].
    rewrite Forall_forall in *. intros y Hy. apply Hx.
    eapply subseq_In; eassumption.
Qed.

Lemma slot_labels_increasing (S step : Z) (n : nat) :
  0 <= S -> 0 < step ->
  (forall i, (i < n)%nat -> S + Z.of_nat i * (step * US_PER_MINUTE)
                            < US_PER_DAY) ->
  StronglySorted (fun a b => String.ltb a b = true)
    (slot_labels S (step * US_PER_MINUTE) n).
Proof.
  intros HS Hstep Hday. unfold slot_labels.
  apply StronglySorted_map_seq. intros i j Hij Hj.
  assert (Hi : (i < n)%nat) by lia. simpl in Hj.
  pose proof (Hday i Hi) as Hui. pose proof (Hday j Hj) as Huj.
  assert (Hpi : 0 <= Z.of_nat i * (step * US_PER_MINUTE))
    by (unfold US_PER_MINUTE; apply Z.mul_nonneg_nonneg; lia).
  assert (Hpj : 0 <= Z.of_nat j * (step * US_PER_MINUTE))
    by (unfold US_PER_MINUTE; apply Z.mul_nonneg_nonneg; lia).
  rewrite !label_of_us_minute by lia.
  set (a := (S + Z.of_nat i * (step * US_PER_MINUTE)) / US_PER_MINUTE).
  assert (Hj' : (S + Z.of_nat j * (step * US_PER_MINUTE)) / US_PER_MINUTE
                = a + Z.of_nat (j - i) * step).
  { unfold a.
    replace (S + Z.of_nat j * (step * US_PER_MINUTE))
      with (S + Z.of_nat i * (step * US_PER_MINUTE)
            + (Z.of_nat (j - i) * step) * US_PER_MINUTE) by nia.
    apply Z.div_add. unfold US_PER_MINUTE. lia. }
  rewrite Hj'.
  assert (Hgap : 0 < Z.of_nat (j - i) * step)
    by (apply Z.mul_pos_pos; lia).
  assert (Ha : 0 <= a) by (unfold a; apply Z.div_pos;
                           [lia | unfold US_PER_MINUTE; lia]).
  assert (Hb : a + Z.of_nat (j - i) * step < 1440).
  { rewrite <- Hj'. apply Z.div_lt_upper_bound;
      unfold US_PER_MINUTE, US_PER_DAY in *; lia. }
  unfold String.ltb.
  replace (Z.of_nat (j - i) * step)
    with (Z.of_nat (Datatypes.S (Z.to_nat (Z.of_nat (j - i) * step - 1))))
    in * by lia.
  rewrite label_of_minute_lt by lia. reflexivity.
Qed.

(** * Order and double bookings *)

Lemma string_ltb_irrefl (s : string) : String.ltb s s = false.
Proof. unfold String.ltb. rewrite string_compare_refl. reflexivity. Qed.

Lemma StronglySorted_ltb_NoDup (l : list string) :
  StronglySorted (fun a b => String.ltb a b = true) l -> NoDup l.
Proof.
  induction 1 as [|x l Hl IH Hx]; constructor; [|exact IH].
  intros Hin. rewrite Forall_forall in Hx. specialize (Hx x Hin).
  rewrite string_ltb_irrefl in Hx. discriminate.
Qed.

Lemma generate_slots_increasing (cfg : Settings) (d : date) :
  valid_date d ->
  valid_time (DAY_START cfg) -> valid_time (DAY_END cfg) ->
  0 < SLOT_MINUTES cfg ->
  toordinal d * US_PER_DAY
  + Z.max (time_us (DAY_START cfg)) (time_us (DAY_END cfg))
  + SLOT_MINUTES cfg * US_PER_MINUTE < LIMIT_US ->
  exists slots,
    generate_slots cfg d = Ok slots /\
    StronglySorted (fun a b => String.ltb a b = true) slots.
Proof.
  intros Hd Hs He Hk Hov.
  destruct (mem_Z (weekday d) (WORK_DAYS cfg)) eqn:Hw.
  - apply mem_Z_In in Hw.
    rewrite (generate_slots_general cfg d Hd Hs He Hw Hk Hov).
    eexists. split; [reflexivity|].
    pose proof (time_us_range _ Hs) as HS.
    pose proof (time_us_range _ He) as HE.
    apply slot_labels_increasing; [lia | lia |].
    intros i Hi.
    destruct (steps_fit (time_us (DAY_START cfg)) (time_us (DAY_END cfg))
                (SLOT_MINUTES cfg * US_PER_MINUTE)
                ltac:(unfold US_PER_MINUTE; lia)) as [Hfit _].
    specialize (Hfit i Hi).
    assert (0 < SLOT_MINUTES cfg * US_PER_MINUTE)
      by (unfold US_PER_MINUTE; lia).
    lia.
  - exists []. split; [|constructor].
    apply generate_slots_not_work_day. intros Hin.
    apply mem_Z_In in Hin. congruence.
Qed.

(** X17.  With a positive slot length the generated labels increase
    strictly in text order, which for these labels is the order of the
    clock, so no label is repeated; the offered labels inherit both. *)
Theorem offered_slots_chronological (cfg : Settings) (conn : Store)
    (clock : nat -> datetime) (d : date) (offered : list string) :
  valid_date d ->
  valid_time (DAY_START cfg) -> valid_time (DAY_END cfg) ->
  0 < SLOT_MINUTES cfg ->
  toordinal d * US_PER_DAY
  + Z.max (time_us (DAY_START cfg)) (time_us (DAY_END cfg))
  + SLOT_MINUTES cfg * US_PER_MINUTE < LIMIT_US ->
  (exists slots,
     generate_slots cfg d = Ok slots /\
     StronglySorted (fun a b => String.ltb a b = true) slots /\
     NoDup slots) /\
  (free_slots cfg conn clock d = Ok offered ->
   StronglySorted (fun a b => String.ltb a b = true) offered /\
   NoDup offered).
Proof.
  intros Hd Hs He Hk Hov.
  destruct (generate_slots_increasing cfg d Hd Hs He Hk Hov)
    as (slots & Hgen & Hsorted).
  split.
  - exists slots. split; [exact Hgen|]. split; [exact Hsorted|].
    apply StronglySorted_ltb_NoDup, Hsorted.
  - intros Hfree.
    assert (Hsub : subseq offered slots).
    { unfold free_slots in Hfree. rewrite Hgen in Hfree. cbn [bind] in Hfree.
      destruct slots as [|x rest] eqn:Es.
      - inversion Hfree. constructor.
      - rewrite <- Es in *.
        destruct (MIN_LEAD_TIME_MINUTES cfg >? 0).
        + eapply subseq_trans;
            [eapply filter_lead_time_subseq; exact Hfree
            | apply subseq_filter].
        + inversion Hfree; subst. apply subseq_filter. }
    assert (Ho : StronglySorted (fun a b => String.ltb a b = true) offered)
      by (eapply StronglySorted_subseq; eassumption).
    split; [exact Ho | apply StronglySorted_ltb_NoDup, Ho].
Qed.

Lemma offered_slots_chronological_witness :
  StronglySorted (fun a b => String.ltb a b = true) ["16:00"; "17:00"] /\
  NoDup ["16:00"; "17:00"].
Proof.
  apply (proj2 (offered_slots_chronological settings sample_store
                  (fun _ => combine (mkdate 2024 1 8) (mktime 14 30 0 0))
                  (mkdate 2024 1 8) ["16:00"; "17:00"]
                  ltac:(vm_compute; intuition discriminate)
                  ltac:(vm_compute; intuition discriminate)
                  ltac:(vm_compute; intuition discriminate)
                  ltac:(reflexivity)
                  ltac:(vm_compute; reflexivity))).
  vm_compute. reflexivity.
Defined.

(** X23.  A status update checks no slot: re-opening a cancelled
    record whose date and time another active record holds leaves a
    double booking. *)
Theorem reopen_can_double_book (conn : Store) (k : Z) (s : string)
    (r r' : Row) :
  In r (bookings conn) -> In r' (bookings conn) ->
  id r = k -> id r' <> k ->
  booking_date (cols r) = booking_date (cols r') ->
  booking_time (cols r) = booking_time (cols r') ->
  status (cols r') <> "cancelled" -> s <> "cancelled" ->
  ~ no_double_booking (update_status conn k s).
Proof.
  intros Hr Hr' Hk Hk' Hd Ht Hs' Hs Hinv.
  unfold no_double_booking, active_slots in Hinv.
  set (active := fun x : Row =>
                   negb (String.eqb (status (cols x)) "cancelled")) in *.
  set (rows := bookings (update_status conn k s)) in *.
  assert (Ha : In (mkRow (id r) (set_status (cols r) s)) (filter active rows)).
  { apply filter_In. split.
    - apply update_status_rows. exists r. split; [exact Hr|].
      rewrite Hk, Z.eqb_refl. reflexivity.
    - unfold active. simpl. apply negb_true_iff, String.eqb_neq. exact Hs. }
  assert (Hb : In r' (filter active rows)).
  { apply filter_In. split.
    - apply update_status_rows. exists r'. split; [exact Hr'|].
      destruct (Z.eqb_spec (id r') k); [contradiction | reflexivity].
    - unfold active. apply negb_true_iff, String.eqb_neq. exact Hs'. }
  pose proof (NoDup_map_inj_in _ _ _ _ Hinv Ha Hb) as E.
  simpl in E. rewrite Hd, Ht in E. specialize (E eq_refl).
  apply Hk'. rewrite <- E. simpl. exact Hk.
Qed.

Lemma reopen_can_double_book_witness :
  no_double_booking
    (insert_booking sample_store (sample_booking "2024-01-08" "10:00" "new"))
  /\ ~ no_double_booking
       (update_status
          (insert_booking sample_store
             (sample_booking "2024-01-08" "10:00" "new")) 1 "new").
Proof.
  split.
  - unfold no_double_booking. vm_compute.
    repeat constructor; simpl; intuition discriminate.
  - apply (reopen_can_double_book _ 1 "new"
             (mkRow 1 (sample_booking "2024-01-08" "10:00" "cancelled"))
             (mkRow 4 (sample_booking "2024-01-08" "10:00" "new")));
      try reflexivity; try discriminate; vm_compute; tauto.
Defined.


(** * The submit handler *)



Lemma is_empty_true (s : string) : is_empty s = true <-> s = "".
Proof. destruct s; simpl; split; congruence. Qed.

Lemma is_empty_false (s : string) : is_empty s = false <-> s <> "".
Proof. destruct s; simpl; split; congruence. Qed.

Lemma validation_errors_nil (conn : Store) (f : Form) :
  validation_errors conn f = [] <-> form_passes conn f.
Proof.
  unfold validation_errors, form_passes. cbv zeta.
  rewrite <- !is_empty_false, <- is_empty_true.
  destruct (is_empty (py_strip (form_customer_name f)));
    destruct (is_empty (normalize_phone (form_phone f)));
    destruct (is_valid_phone (normalize_phone (form_phone f)));
    destruct (is_empty (py_strip (form_suburb f)));
    destruct (form_consent f);
    destruct (is_empty (form_booking_time f));
    destruct (slot_taken conn (isoformat (form_booking_day f))
                (form_booking_time f));
    simpl; split; try discriminate; try tauto;
    intros (? & ? & ? & ? & ? & [? | ?]); discriminate.
Qed.

Lemma submit_accepted (conn conn' : Store) (nd : date) (nt : time)
    (f : Form) :
  submit conn nd nt f = Accepted conn' <->
  exists base travel_fee addons_price,
    form_prices f = Some (base, travel_fee, addons_price) /\
    form_passes conn f /\
    conn' = insert_booking conn
              (form_booking nd nt f base travel_fee addons_price).
Proof.
  unfold submit. split.
  - destruct (form_prices f) as [[[base tf] ap]|]; [|discriminate].
    destruct (validation_errors conn f) eqn:E; [|discriminate].
    intros H. inversion H; subst.
    exists base, tf, ap. split; [reflexivity|].
    split; [apply validation_errors_nil; exact E | reflexivity].
  - intros (base & tf & ap & -> & Hp & ->).
    apply validation_errors_nil in Hp. rewrite Hp. reflexivity.
Qed.

Lemma validation_errors_taken (conn : Store) (f : Form) :
  form_booking_time f <> "" ->
  slot_taken conn (isoformat (form_booking_day f)) (form_booking_time f)
  = true ->
  In TAKEN_ERROR (validation_errors conn f).
Proof.
  intros Ht Hs. unfold validation_errors. cbv zeta.
  apply is_empty_false in Ht. rewrite Ht, Hs. simpl.
  repeat (apply in_or_app; right). left. reflexivity.
Qed.

Lemma slot_taken_active (conn : Store) (d t : string) :
  slot_taken conn d t = false <-> ~ In (d, t) (active_slots (bookings conn)).
Proof.
  rewrite slot_taken_false. unfold active_slots. split.
  - intros H Hin. apply in_map_iff in Hin as (r & E & Hr).
    apply filter_In in Hr as [Hr Hs]. inversion E; subst.
    specialize (H r Hr). unfold holds_slot in H.
    rewrite !String.eqb_refl, Hs in H. discriminate.
  - intros H r Hr. destruct (holds_slot d t r) eqn:E; [|reflexivity].
    exfalso. apply H. apply holds_slot_true in E as (Hd & Ht & Hs).
    apply in_map_iff. exists r. split; [congruence|].
    apply filter_In. split; [exact Hr|].
    apply negb_true_iff, String.eqb_neq. exact Hs.
Qed.

Lemma dict_get_in (d : list (string * Z)) (k : string) (v : Z) :
  dict_get d k = Some v -> In v (map snd d).
Proof.
  induction d as [|[k' v'] d IH]; simpl; [discriminate|].
  destruct (String.eqb k' k); [intros H; inversion H; auto | auto].
Qed.

Lemma addons_sum_nonneg (l : list string) (t : Z) :
  addons_sum l = Some t -> 35 * Z.of_nat (List.length l) <= t.
Proof.
  revert t. induction l as [|a l IH]; cbn [addons_sum List.length];
    intros t H.
  - inversion H. lia.
  - destruct (dict_get ADDONS a) as [v|] eqn:E; [|discriminate].
    destruct (addons_sum l) as [t'|]; [|discriminate].
    inversion H; subst. specialize (IH t' eq_refl).
    apply dict_get_in in E. simpl in E.
    assert (35 <= v) by (intuition lia). lia.
Qed.

Lemma form_prices_bounds (f : Form) (base tf ap : Z) :
  form_prices f = Some (base, tf, ap) ->
  99 <= base <= 420 /\ 0 <= tf <= 40 /\
  35 * Z.of_nat (List.length (form_addons_selected f)) <= ap.
Proof.
  unfold form_prices.
  destruct (dict_get SERVICES _) as [b|] eqn:Eb; [|discriminate].
  destruct (dict_get TRAVEL_ZONES _) as [t|] eqn:Et; [|discriminate].
  destruct (addons_sum _) as [a|] eqn:Ea; [|discriminate].
  intros H; inversion H; subst.
  apply dict_get_in in Eb, Et. simpl in Eb, Et.
  apply addons_sum_nonneg in Ea. intuition lia.
Qed.

(** X9.  A submission is accepted exactly when its labels are in the
    price lists, the stripped name and suburb are not empty, the
    normalised phone is not empty and valid, the consent box is ticked,
    and the chosen slot is not taken; the new table is then the old one
    with the booking of the form inserted. *)
Theorem submit_accepted_iff (conn conn' : Store) (nd : date) (nt : time)
    (f : Form) :
  submit conn nd nt f = Accepted conn' <->
  exists base travel_fee addons_price,
    form_prices f = Some (base, travel_fee, addons_price) /\
    form_passes conn f /\
    conn' = insert_booking conn
              (form_booking nd nt f base travel_fee addons_price).
Proof. apply submit_accepted. Qed.

Lemma submit_accepted_iff_witness :
  exists conn',
    submit sample_store (mkdate 2024 1 5) (mktime 10 15 7 0)
      (sample_form "11:00") = Accepted conn' /\
    map id (bookings conn') = [1; 2; 3; 4].
Proof.
  eexists. split.
  - apply (proj2 (submit_accepted_iff sample_store _ (mkdate 2024 1 5)
                    (mktime 10 15 7 0) (sample_form "11:00"))).
    exists 189, 20, 75. split; [reflexivity|]. split; [|reflexivity].
    unfold form_passes. vm_compute. intuition discriminate.
  - reflexivity.
Defined.

(** X10.  A submission for a slot that is taken is rejected, and the
    list of errors names the taken slot. *)
Theorem submit_taken_slot_rejected (conn : Store) (nd : date) (nt : time)
    (f : Form) :
  form_prices f <> None ->
  form_booking_time f <> "" ->
  slot_taken conn (isoformat (form_booking_day f)) (form_booking_time f)
  = true ->
  exists errors,
    submit conn nd nt f = Rejected errors /\ In TAKEN_ERROR errors.
Proof.
  intros Hp Ht Hs. unfold submit.
  destruct (form_prices f) as [[[base tf] ap]|]; [|contradiction].
  pose proof (validation_errors_taken conn f Ht Hs) as Hin.
  destruct (validation_errors conn f) as [|e errors]; [destruct Hin|].
  exists (e :: errors). split; [reflexivity | exact Hin].
Qed.

Lemma submit_taken_slot_rejected_witness :
  exists errors,
    submit sample_store (mkdate 2024 1 5) (mktime 10 15 7 0)
      (sample_form "15:00") = Rejected errors /\
    In TAKEN_ERROR errors.
Proof.
  apply (submit_taken_slot_rejected sample_store (mkdate 2024 1 5)
           (mktime 10 15 7 0) (sample_form "15:00")).
  - vm_compute. discriminate.
  - discriminate.
  - reflexivity.
Defined.

(** X11.  Once a submission is accepted, the slot it booked is no
    longer among the slots the page offers for that day, for as long as
    the table holds the records it held right after the insert: the
    next run of the page cannot select that slot again. *)
Theorem accepted_slot_not_offered (cfg : Settings)
    (conn conn' later : Store) (nd : date) (nt : time) (f : Form)
    (clock : nat -> datetime) (offered : list string) :
  submit conn nd nt f = Accepted conn' ->
  incl (bookings conn') (bookings later) ->
  free_slots cfg later clock (form_booking_day f) = Ok offered ->
  ~ In (form_booking_time f) offered.
Proof.
  intros H Hincl Hfree Hin.
  apply submit_accepted in H as (base & tf & ap & _ & _ & ->).
  destruct (free_slots_sound cfg later clock _ offered Hfree _ Hin)
    as [Hs _].
  rewrite slot_taken_false in Hs.
  specialize (Hs (mkRow (next_id conn)
                    (form_booking nd nt f base tf ap))).
  unfold holds_slot in Hs.
  cbn [cols form_booking booking_date booking_time status] in Hs.
  rewrite !String.eqb_refl in Hs.
  assert (E : true && true && negb ("new" =? "cancelled")%string = true)
    by reflexivity.
  rewrite E in Hs. discriminate Hs.
  apply Hincl. cbn [insert_booking bookings].
  apply in_or_app. right. left. reflexivity.
Qed.

Lemma accepted_slot_not_offered_witness :
  exists conn' offered,
    submit sample_store (mkdate 2024 1 5) (mktime 10 15 7 0)
      (sample_form "11:00") = Accepted conn' /\
    free_slots settings conn'
      (fun _ => combine (mkdate 2024 1 5) (mktime 10 15 9 0))
      (mkdate 2024 1 8) = Ok offered /\
    List.hd_error offered = Some "09:00" /\
    ~ In "11:00" offered.
Proof.
  eexists. eexists. split; [reflexivity|].
  split; [vm_compute; reflexivity|]. split; [reflexivity|].
  eapply accepted_slot_not_offered
    with (cfg := settings) (conn := sample_store)
         (nd := mkdate 2024 1 5) (nt := mktime 10 15 7 0)
         (f := sample_form "11:00")
         (clock := fun _ => combine (mkdate 2024 1 5) (mktime 10 15 9 0)).
  - reflexivity.
  - apply incl_refl.
  - vm_compute. reflexivity.
Defined.

Lemma submit_between_accepted (seen conn conn' : Store) (nd : date)
    (nt : time) (f : Form) :
  submit_between seen conn nd nt f = Accepted conn' <->
  exists base travel_fee addons_price,
    form_prices f = Some (base, travel_fee, addons_price) /\
    form_passes seen f /\
    conn' = insert_booking conn
              (form_booking nd nt f base travel_fee addons_price).
Proof.
  unfold submit_between. split.
  - destruct (form_prices f) as [[[base tf] ap]|]; [|discriminate].
    destruct (validation_errors seen f) eqn:E; [|discriminate].
    intros H. inversion H; subst.
    exists base, tf, ap. split; [reflexivity|].
    split; [apply validation_errors_nil; exact E | reflexivity].
  - intros (base & tf & ap & -> & Hp & ->).
    apply validation_errors_nil in Hp. rewrite Hp. reflexivity.
Qed.

Lemma submit_between_same (conn : Store) (nd : date) (nt : time)
    (f : Form) :
  submit_between conn conn nd nt f = submit conn nd nt f.
Proof. reflexivity. Qed.

(** X12.  The handler checks the slot in line 276 and inserts in line
    301, two statements on a table that other sessions share.  When a
    submission with a time slot is accepted, the table read by the
    check did not hold the slot; and the table after the insert is free
    of double bookings exactly when the table at the insert was free of
    them and did not hold the slot.  So an accepted submission keeps
    the table free of double bookings when no one took the slot between
    the check and the insert, and leaves two bookings on one slot when
    someone did. *)
Theorem submit_between_no_double_booking (seen conn conn' : Store)
    (nd : date) (nt : time) (f : Form) :
  form_booking_time f <> "" ->
  submit_between seen conn nd nt f = Accepted conn' ->
  slot_taken seen (isoformat (form_booking_day f)) (form_booking_time f)
  = false /\
  (no_double_booking conn' <->
   no_double_booking conn /\
   slot_taken conn (isoformat (form_booking_day f)) (form_booking_time f)
   = false).
Proof.
  intros Ht H.
  apply submit_between_accepted in H as (base & tf & ap & Hp & Hpass & ->).
  destruct Hpass as (_ & _ & _ & _ & _ & [Hempty | Hfree]); [contradiction|].
  split; [exact Hfree|].
  rewrite slot_taken_active.
  unfold no_double_booking, active_slots.
  cbn [insert_booking bookings]. rewrite filter_app, map_app.
  cbn [filter map cols form_booking status booking_date booking_time
         String.eqb Ascii.eqb Bool.eqb negb].
  set (x := (isoformat (form_booking_day f), form_booking_time f)).
  set (l := map (fun r => (booking_date (cols r), booking_time (cols r)))
              (filter (fun r => negb (String.eqb (status (cols r))
                                        "cancelled"))
                      (bookings conn))).
  assert (Hperm : Permutation (x :: l) (l ++ [x]))
    by apply Permutation_cons_append.
  split.
  - intros Hnd. apply (Permutation_NoDup (Permutation_sym Hperm)) in Hnd.
    apply NoDup_cons_iff in Hnd. tauto.
  - intros [Hl Hx]. apply (Permutation_NoDup Hperm).
    constructor; assumption.
Qed.

(** Two sessions read the sample table, both see the slot free, and
    both insert. *)
Lemma submit_between_no_double_booking_witness :
  exists conn1 conn2,
    submit sample_store (mkdate 2024 1 5) (mktime 10 15 7 0)
      (sample_form "11:00") = Accepted conn1 /\
    submit_between sample_store conn1 (mkdate 2024 1 5) (mktime 10 15 9 0)
      (sample_form "11:00") = Accepted conn2 /\
    map id (bookings conn2) = [1; 2; 3; 4; 5] /\
    ~ no_double_booking conn2.
Proof.
  eexists. eexists. split; [reflexivity|]. split; [reflexivity|].
  split; [reflexivity|].
  intros Hnd.
  match type of Hnd with
  | no_double_booking (insert_booking ?c ?b) =>
      destruct (submit_between_no_double_booking sample_store c
                  (insert_booking c b) (mkdate 2024 1 5)
                  (mktime 10 15 9 0) (sample_form "11:00"))
        as [_ Hiff]
  end.
  - discriminate.
  - reflexivity.
  - apply Hiff in Hnd as [_ Hs]. vm_compute in Hs. discriminate Hs.
Defined.

Lemma addons_sum_count (l : list string) (t : Z) :
  addons_sum l = Some t ->
  t = 35 * Z.of_nat (count_occ string_dec l "Tube install labour (+$35)")
      + 40 * Z.of_nat (count_occ string_dec l
                         "Brake pads install labour (+$40)")
      + 40 * Z.of_nat (count_occ string_dec l "Chain install labour (+$40)")
      + 60 * Z.of_nat (count_occ string_dec l "Deep drivetrain clean (+$60)")
      + 40 * Z.of_nat (count_occ string_dec l "E-bike inspection (+$40)").
Proof.
  revert t. induction l as [|a l IH]; intros t H.
  - inversion H. reflexivity.
  - cbn [addons_sum] in H.
    destruct (dict_get ADDONS a) as [v|] eqn:Ev; [|discriminate].
    destruct (addons_sum l) as [t'|]; [|discriminate].
    inversion H; subst t; clear H. specialize (IH t' eq_refl).
    unfold ADDONS in Ev. cbn [dict_get] in Ev.
    cbn [count_occ].
    repeat match type of Ev with
           | (if String.eqb ?k a then _ else _) = _ =>
               destruct (String.eqb_spec k a) as [<- | ?]
           end;
      try discriminate;
      inversion Ev; subst v;
      repeat match goal with
             | |- context [string_dec ?x ?y] =>
                 destruct (string_dec x y); try congruence
             end;
      lia.
Qed.

Lemma addons_sum_NoDup (l : list string) (t : Z) :
  NoDup l -> addons_sum l = Some t -> t <= 215.
Proof.
  intros Hnd H. apply addons_sum_count in H.
  pose proof (proj1 (NoDup_count_occ string_dec l) Hnd) as Hc.
  pose proof (Hc "Tube install labour (+$35)").
  pose proof (Hc "Brake pads install labour (+$40)").
  pose proof (Hc "Chain install labour (+$40)").
  pose proof (Hc "Deep drivetrain clean (+$60)").
  pose proof (Hc "E-bike inspection (+$40)").
  lia.
Qed.

(** X13.  The total shown to the customer is the total the admin view
    computes for the record of the accepted submission, as long as it
    is below 2^63, where the 64-bit sum of the view wraps; it is at
    least 99, and at most 675 when no add-on is selected twice, as the
    multiselect box guarantees. *)
Theorem submit_total_matches_admin (conn conn' : Store) (nd : date)
    (nt : time) (f : Form) :
  submit conn nd nt f = Accepted conn' ->
  exists t,
    form_total f = Some t /\
    99 <= t /\
    (NoDup (form_addons_selected f) -> t <= 675) /\
    (t <= 9223372036854775807 ->
     (exists v, In v (add_total (fetch_bookings conn')) /\
                id (row v) = next_id conn /\ total v = t) /\
     (forall v, In v (add_total (fetch_bookings conn')) ->
                id (row v) = next_id conn -> total v = t)).
Proof.
  intros H.
  apply submit_accepted in H as (base & tf & ap & Hp & _ & ->).
  exists (base + tf + ap). unfold form_total. rewrite Hp.
  pose proof (form_prices_bounds f base tf ap Hp) as (Hb & Htf & Hap).
  split; [reflexivity|]. split; [lia|]. split.
  { intros Hnd. unfold form_prices in Hp.
    destruct (dict_get SERVICES _); [|discriminate].
    destruct (dict_get TRAVEL_ZONES _); [|discriminate].
    destruct (addons_sum _) as [a|] eqn:Ea; [|discriminate].
    inversion Hp; subst. apply (addons_sum_NoDup _ _ Hnd) in Ea. lia. }
  intros Hmax.
  assert (Hfit : fits_int64 (base + ap + tf)) by (unfold fits_int64; lia).
  split.
  - eexists (mkViewRow (mkRow (next_id conn) _) _). split.
    + unfold add_total. apply in_map_iff. eexists. split; [reflexivity|].
      apply fetch_bookings_In. cbn [insert_booking bookings].
      apply in_or_app. right. left. reflexivity.
    + cbn [row id total cols form_booking service_price addons_price
             travel_fee].
      split; [reflexivity|]. rewrite (int64_total _ _ _ Hfit). lia.
  - intros v Hv Hid. unfold add_total in Hv.
    apply in_map_iff in Hv as (r & <- & Hr). simpl in Hid.
    apply fetch_bookings_In in Hr. cbn [insert_booking bookings] in Hr.
    apply in_app_or in Hr as [Hr | [<- | []]].
    + apply next_id_fresh in Hr. lia.
    + cbn [row id total cols form_booking service_price addons_price
             travel_fee].
      rewrite (int64_total _ _ _ Hfit). lia.
Qed.

Lemma submit_total_matches_admin_witness :
  form_total (sample_form "11:00") = Some 284 /\
  exists conn' t,
    submit sample_store (mkdate 2024 1 5) (mktime 10 15 7 0)
      (sample_form "11:00") = Accepted conn' /\
    form_total (sample_form "11:00") = Some t /\
    exists v, In v (add_total (fetch_bookings conn')) /\
              id (row v) = 4 /\ total v = t.
Proof.
  split; [reflexivity|].
  eexists.
  destruct (submit_total_matches_admin sample_store _ (mkdate 2024 1 5)
              (mktime 10 15 7 0) (sample_form "11:00") eq_refl)
    as (t & Ht & _ & _ & Hex).
  exists t. split; [reflexivity|]. split; [exact Ht|].
  apply Hex. vm_compute in Ht. inversion Ht. lia.
Defined.

(** X14.  The record of an accepted submission has status "new", a
    name and a suburb that are not empty, a valid phone without spaces
    and hyphens, the date and time of the form, a base price between 99
    and 420, a travel fee between 0 and 40 and an add-on price that is
    not negative. *)
Theorem submit_stores_clean_booking (conn conn' : Store) (nd : date)
    (nt : time) (f : Form) :
  submit conn nd nt f = Accepted conn' ->
  exists b,
    bookings conn' = (bookings conn ++ [mkRow (next_id conn) b])%list /\
    status b = "new" /\
    customer_name b <> "" /\ suburb b <> "" /\
    is_valid_phone (phone b) = true /\
    (forall c, In c (list_ascii_of_string (phone b)) ->
               c <> " "%char /\ c <> "-"%char) /\
    booking_date b = isoformat (form_booking_day f) /\
    booking_time b = form_booking_time f /\
    99 <= service_price b <= 420 /\
    0 <= travel_fee b <= 40 /\
    0 <= addons_price b.
Proof.
  intros H.
  apply submit_accepted in H as (base & tf & ap & Hp & Hpass & ->).
  destruct Hpass as (Hn & _ & Hv & Hs & _ & _).
  apply form_prices_bounds in Hp as (Hb & Ht & Ha).
  eexists. split; [reflexivity|]. cbn [form_booking status customer_name
    suburb phone booking_date booking_time service_price travel_fee
    addons_price].
  repeat (split; [first [reflexivity | assumption | lia]|]).
  split.
  - intros c Hc. unfold normalize_phone in Hc. split; intros ->.
    + apply remove_char_subset in Hc. exact (remove_char_absent _ _ Hc).
    + exact (remove_char_absent _ _ Hc).
  - repeat (split; [first [reflexivity | assumption | lia]|]). lia.
Qed.

Lemma submit_stores_clean_booking_witness :
  exists conn' b,
    submit sample_store (mkdate 2024 1 5) (mktime 10 15 7 0)
      (sample_form "11:00") = Accepted conn' /\
    bookings conn' = (bookings sample_store ++ [mkRow 4 b])%list /\
    phone b = "0412345678" /\ customer_name b = "Alex".
Proof.
  eexists.
  destruct (submit_stores_clean_booking sample_store _ (mkdate 2024 1 5)
              (mktime 10 15 7 0) (sample_form "11:00") eq_refl)
    as (b & Hb & _).
  exists b. split; [reflexivity|]. split; [exact Hb|].
  apply app_inj_tail in Hb as [_ Hb]. inversion Hb. split; reflexivity.
Defined.

(** X15.  A slot that the availability filter offers can be booked:
    with labels from the price lists, a name, a valid phone, a suburb
    and the consent, the submission for that day and slot is accepted,
    and the slot is taken afterwards. *)
Theorem offered_slot_is_accepted (cfg : Settings) (conn : Store)
    (clock : nat -> datetime) (offered : list string) (nd : date)
    (nt : time) (f : Form) :
  free_slots cfg conn clock (form_booking_day f) = Ok offered ->
  In (form_booking_time f) offered ->
  form_prices f <> None ->
  py_strip (form_customer_name f) <> "" ->
  is_valid_phone (normalize_phone (form_phone f)) = true ->
  py_strip (form_suburb f) <> "" ->
  form_consent f = true ->
  exists conn',
    submit conn nd nt f = Accepted conn' /\
    slot_taken conn' (isoformat (form_booking_day f)) (form_booking_time f)
    = true.
Proof.
  intros Hfree Hin Hp Hn Hv Hs Hc.
  destruct (free_slots_sound cfg conn clock _ offered Hfree _ Hin)
    as [Hnt _].
  destruct (form_prices f) as [[[base tf] ap]|] eqn:Ep; [|contradiction].
  eexists. split.
  - apply submit_accepted. exists base, tf, ap.
    split; [exact Ep|]. split; [|reflexivity].
    unfold form_passes. repeat (split; [assumption|]).
    split.
    + intros E. apply is_valid_phone_length in Hv. rewrite E in Hv.
      simpl in Hv. lia.
    + repeat (split; [assumption|]). right. exact Hnt.
  - rewrite slot_taken_exists. cbn [insert_booking bookings].
    rewrite existsb_app. cbn [existsb]. unfold holds_slot at 2.
    cbn [cols form_booking booking_date booking_time status].
    rewrite !String.eqb_refl. cbn. rewrite !orb_true_r. reflexivity.
Qed.

Lemma offered_slot_is_accepted_witness :
  exists conn',
    submit sample_store (mkdate 2024 1 5) (mktime 10 15 7 0)
      (sample_form "11:00") = Accepted conn' /\
    slot_taken conn' "2024-01-08" "11:00" = true.
Proof.
  apply (offered_slot_is_accepted settings sample_store
           (fun _ => combine (mkdate 2024 1 8) (mktime 8 0 0 0))
           ["09:00"; "10:00"; "11:00"; "12:00"; "13:00"; "14:00"; "16:00";
            "17:00"]
           (mkdate 2024 1 5) (mktime 10 15 7 0) (sample_form "11:00"));
    try (vm_compute; intuition discriminate).
Defined.
